(** * CardPuter charge mode: a shallow embedding of [cardputer_charge_mode.ino]

    The firmware shows the battery level on one WS2812 LED while the LCD is
    asleep.  This development embeds the sketch function by function:

    - the battery classifier ([getBatteryLevel], [getBatteryColor]) with its
      single piece of cross-call state, the global [current_zone];
    - the WS2812 encoder ([ws2812_encode], [ws2812_encoder_new]) on top of a
      model of the two RMT driver primitives it composes;
    - the hardware-facing code ([setLedColor], [lcd_cmd], [lcd_data],
      [lcd_sleep], [setup], [loop]) as a state monad over the sketch's
      globals and a trace of the peripheral operations performed.

    C [int] and [unsigned long] values are [Z] with the wrap-around written
    out where the source relies on it; [float] is IEEE binary32, computed
    with the reference operations of [SpecFloat]. *)

From Stdlib Require Import ZArith List Bool Lia Sorted Floats.SpecFloat.
Import ListNotations.
Local Open Scope Z_scope.

(* ===================================================================== *)
(** * Configuration constants *)
(* ===================================================================== *)

Definition LED_PIN : Z := 21.
Definition LCD_BL_PIN : Z := 38.
Definition LCD_DC : Z := 34.
Definition LCD_RST : Z := 33.

Definition BATTERY_UPDATE_MS : Z := 10000.
Definition MIN_BACKLIGHT_DUTY : Z := 5000.

(** [esp_err_t] is an [int]; the three values the sketch tests or returns. *)
Definition ESP_OK : Z := 0.
Definition ESP_FAIL : Z := -1.
Definition ESP_ERR_INVALID_STATE : Z := 259.

(** Bounded universal quantification, decided by evaluation: [P] holds
    of the [n] integers from [a] on. *)
Fixpoint forall_from (n : nat) (a : Z) (P : Z -> bool) : bool :=
  match n with
  | O => true
  | S k => if P a then forall_from k (a + 1) P else false
  end.

(* ===================================================================== *)
(** * Battery classifier *)
(* ===================================================================== *)

Module Battery.

(** ** binary32 arithmetic *)

Definition prec : Z := 24.
Definition emax : Z := 128.

Definition fmul := SFmul prec emax.
Definition fdiv := SFdiv prec emax.
Definition fsub := SFsub prec emax.

(** Conversion of an integer to [float] (round to nearest even). *)
Definition float_of_int (z : Z) : spec_float :=
  binary_normalize prec emax z 0 false.

(** Conversion of a [float] to [int]: truncation toward zero.  The C
    conversion is undefined on NaN and infinities, which the sketch never
    produces from finite readings; they are mapped to 0 here. *)
Definition int_of_float (f : spec_float) : Z :=
  match f with
  | S754_finite s m e =>
      let a := match e with
               | Z.neg p => Z.pos m / 2 ^ Z.pos p
               | _ => Z.pos m * 2 ^ e
               end in
      if s then - a else a
  | _ => 0
  end.

(** [#define BATTERY_MIN_V 3.0f] and [#define BATTERY_MAX_V 4.2f]; the
    latter is the binary32 number nearest to 4.2, 8808038 * 2^-21. *)
Definition BATTERY_MIN_V : spec_float := float_of_int 3.
Definition BATTERY_MAX_V : spec_float := S754_finite false 8808038 (-21).

(** [long] is 32 bits on the ESP32-S3: signed wrap-around. *)
Definition wrap_long (z : Z) : Z := (z + 2 ^ 31) mod 2 ^ 32 - 2 ^ 31.

(** Arduino's [constrain(amt, low, high)] macro. *)
Definition constrain (amt low high : Z) : Z :=
  if amt <? low then low else if amt >? high then high else amt.

(** The accumulation loop of [getBatteryLevel]: [sum += sample] for each
    reading in turn. *)
Definition accumulate (samples : list Z) : Z :=
  fold_left (fun sum mv => wrap_long (sum + mv)) samples 0.

(** [float voltage = (sum / 8) * 2.0f / 1000.0f;] : the division by 8 is
    the integer division of [long], the rest is [float] arithmetic on the
    average. *)
Definition voltage_of_avg (avg : Z) : spec_float :=
  fdiv (fmul (float_of_int avg) (float_of_int 2)) (float_of_int 1000).

Definition voltage_of_sum (sum : Z) : spec_float :=
  voltage_of_avg (Z.quot sum 8).

(** [int level = ((voltage - MIN) / (MAX - MIN)) * 100;
     return constrain(level, 0, 100);] *)
Definition level_of_voltage (voltage : spec_float) : Z :=
  let level :=
    int_of_float
      (fmul (fdiv (fsub voltage BATTERY_MIN_V)
                  (fsub BATTERY_MAX_V BATTERY_MIN_V))
            (float_of_int 100)) in
  constrain level 0 100.

Definition level_of_sum (sum : Z) : Z := level_of_voltage (voltage_of_sum sum).

(** ** An integer key for the order of voltages *)

(** On the non-negative binary32 numbers the order is the lexicographic
    order of exponent and mantissa; [float_key] maps them to integers
    accordingly, zero below every positive number. *)
Definition float_key (f : spec_float) : Z :=
  match f with
  | S754_finite false m e => e * 2 ^ 24 + Z.pos m
  | _ => - 2 ^ 40
  end.

Definition key_domain (f : spec_float) : bool :=
  match f with
  | S754_zero _ => true
  | S754_finite false m e => (Z.pos m <? 2 ^ 24) && (-149 <=? e)
  | _ => false
  end.

(** What is checked of one averaged reading [avg] and its successor: the
    voltages are in the key domain and strictly increasing, the level does
    not decrease, it lies in 0..100, it is 0 when the voltage is at most
    [BATTERY_MIN_V] and 100 when it is at least [BATTERY_MAX_V]. *)
Definition level_check (avg : Z) : bool :=
  let v := voltage_of_avg avg in
  let v' := voltage_of_avg (avg + 1) in
  let l := level_of_voltage v in
  let l' := level_of_voltage v' in
  key_domain v && key_domain v'
  && (float_key v <? float_key v') && (l <=? l')
  && (0 <=? l) && (l <=? 100)
  && implb (SFleb v BATTERY_MIN_V) (l =? 0)
  && implb (SFleb BATTERY_MAX_V v) (l =? 100).

(** ** Zone hysteresis *)

(** The zone selection of [getBatteryColor]: the value assigned to
    [new_zone], from the global [current_zone] and the level. *)
Definition next_zone (current_zone level : Z) : Z :=
  if current_zone =? -1 then
    if level <? 25 then 0
    else if level <? 50 then 1
    else if level <? 75 then 2
    else 3
  else
    if (current_zone =? 0) && (level >=? 28) then 1
    else if (current_zone =? 1) && (level <? 22) then 0
    else if (current_zone =? 1) && (level >=? 53) then 2
    else if (current_zone =? 2) && (level <? 47) then 1
    else if (current_zone =? 2) && (level >=? 78) then 3
    else if (current_zone =? 3) && (level <? 72) then 2
    else current_zone.

(** An RGB triple as written through the three [uint8_t*] out-parameters. *)
Record color := RGB { red : Z; green : Z; blue : Z }.

(** The [switch (new_zone)] of [getBatteryColor]. *)
Definition zone_color (new_zone : Z) : color :=
  match new_zone with
  | 0 => RGB 255 0 0
  | 1 => RGB 255 128 0
  | 2 => RGB 255 255 0
  | _ => RGB 0 255 0
  end.

(** The fixed table of the specification, section 4.4. *)
Definition color_table : list (Z * color) :=
  [ (0, RGB 255 0 0); (1, RGB 255 128 0);
    (2, RGB 255 255 0); (3, RGB 0 255 0) ].

(** Reading the table. *)
Fixpoint table_lookup (zone : Z) (table : list (Z * color)) : option color :=
  match table with
  | [] => None
  | (z, c) :: rest => if z =? zone then Some c else table_lookup zone rest
  end.

(** The plain threshold between zone [k] and zone [k + 1]. *)
Definition plain_threshold (k : Z) : Z := 25 * (k + 1).

(** The percentage the linear map of [getBatteryLevel] gives in exact
    arithmetic for an averaged reading of [avg] millivolts (the battery is
    at twice that, 3000 mV is 0 and 4200 mV is 100), rounded down. *)
Definition exact_percent (avg : Z) : Z := (2 * avg - 3000) * 100 / 1200.

(** What is checked of one averaged reading between the two clamps: the
    level is the exact percentage or one below it. *)
Definition accuracy_check (avg : Z) : bool :=
  let l := level_of_voltage (voltage_of_avg avg) in
  (exact_percent avg - 1 <=? l) && (l <=? exact_percent avg).

(** The array [{g, r, b}] that [setLedColor] sends for a color. *)
Definition grb (c : color) : list Z := [green c; red c; blue c].

(** The payloads of the four table colors. *)
Definition table_frames : list (list Z) :=
  map (fun e => grb (snd e)) color_table.

End Battery.

(* ===================================================================== *)
(** * RMT driver primitives and the WS2812 encoder *)
(* ===================================================================== *)

Module Rmt.

(** One RMT symbol: two (level, duration) halves, durations in ticks of
    the channel resolution. *)
Record rmt_symbol_word_t := Symbol {
  level0 : Z; duration0 : Z;
  level1 : Z; duration1 : Z
}.

(** [rmt_encode_state_t] is a bit set. *)
Definition RMT_ENCODING_RESET : Z := 0.
Definition RMT_ENCODING_COMPLETE : Z := 1.
Definition RMT_ENCODING_MEM_FULL : Z := 2.

(** [state & FLAG] used as a C condition. *)
Definition has_flag (state flag : Z) : bool := negb (Z.land state flag =? 0).

(** The symbol memory of the TX channel as an encoding session sees it:
    the number of free symbol slots left in this pass and everything
    written to the wire so far. *)
Record tx_mem := TxMem {
  mem_free : nat;
  wire : list rmt_symbol_word_t
}.

Record rmt_bytes_encoder_config_t := BytesCfg {
  bit0 : rmt_symbol_word_t;
  bit1 : rmt_symbol_word_t;
  msb_first : bool
}.

(** The driver's bytes encoder keeps a resume cursor: the number of bits of
    the payload already emitted. *)
Record rmt_bytes_encoder_t := BytesEnc {
  bytes_cfg : rmt_bytes_encoder_config_t;
  last_bit : nat
}.

(** The copy encoder keeps the number of symbols already copied. *)
Record rmt_copy_encoder_t := CopyEnc { last_symbol : nat }.

(** Bit [i] of the payload in transmission order. *)
Definition data_bit (msb : bool) (data : list Z) (i : nat) : bool :=
  let byte := nth (i / 8) data 0 in
  let k := Z.of_nat (i mod 8) in
  Z.testbit byte (if msb then 7 - k else k).

Fixpoint encode_bits (cfg : rmt_bytes_encoder_config_t) (data : list Z)
    (from count : nat) : list rmt_symbol_word_t :=
  match count with
  | O => []
  | S c =>
      (if data_bit (msb_first cfg) data from then bit1 cfg else bit0 cfg)
        :: encode_bits cfg data (S from) c
  end.

(** Modelled from the spec: the driver's bytes encoder, which is not part
    of the sketch ("each bit of each byte becomes one timed two-level
    pulse ..., transmitted most-significant-bit first"; "signals completion
    when all bytes consumed, signals a buffer-full condition if the
    underlying channel's symbol memory cannot hold the whole frame in one
    pass" and resumes in place).  It writes as many pending bit symbols as
    fit, reports COMPLETE when none is left and MEM_FULL when no slot is. *)
Definition rmt_bytes_encode (enc : rmt_bytes_encoder_t) (mem : tx_mem)
    (data : list Z)
    : nat * Z * rmt_bytes_encoder_t * tx_mem :=
  let mem_want := (8 * length data - last_bit enc)%nat in
  let mem_have := mem_free mem in
  let encode_len := Nat.min mem_want mem_have in
  let encode_done := Nat.eqb encode_len mem_want in
  let mem' := TxMem (mem_have - encode_len)
                (wire mem
                 ++ encode_bits (bytes_cfg enc) data (last_bit enc) encode_len)
  in
  let enc' := BytesEnc (bytes_cfg enc)
                (if encode_done then O else (last_bit enc + encode_len)%nat) in
  let state :=
    Z.lor (if encode_done then RMT_ENCODING_COMPLETE else RMT_ENCODING_RESET)
          (if Nat.eqb (mem_free mem') O then RMT_ENCODING_MEM_FULL
           else RMT_ENCODING_RESET) in
  (encode_len, state, enc', mem').

(** Modelled from the spec: the driver's copy encoder, which is not part of
    the sketch; it copies the given symbols to the channel memory with the
    same completion and buffer-full protocol. *)
Definition rmt_copy_encode (enc : rmt_copy_encoder_t) (mem : tx_mem)
    (symbols : list rmt_symbol_word_t)
    : nat * Z * rmt_copy_encoder_t * tx_mem :=
  let mem_want := (length symbols - last_symbol enc)%nat in
  let mem_have := mem_free mem in
  let encode_len := Nat.min mem_want mem_have in
  let encode_done := Nat.eqb encode_len mem_want in
  let mem' := TxMem (mem_have - encode_len)
                (wire mem
                 ++ firstn encode_len (skipn (last_symbol enc) symbols))
  in
  let enc' := CopyEnc (if encode_done then O
                       else (last_symbol enc + encode_len)%nat) in
  let state :=
    Z.lor (if encode_done then RMT_ENCODING_COMPLETE else RMT_ENCODING_RESET)
          (if Nat.eqb (mem_free mem') O then RMT_ENCODING_MEM_FULL
           else RMT_ENCODING_RESET) in
  (encode_len, state, enc', mem').

(** ** The sketch's encoder *)

Record ws2812_encoder_t := Ws2812 {
  bytes_encoder : rmt_bytes_encoder_t;
  copy_encoder : rmt_copy_encoder_t;
  state : Z;
  reset_code : rmt_symbol_word_t
}.

(** The body of [case 1:] of [ws2812_encode], entered directly or by
    falling through from [case 0:], with the values of [encoded] and
    [state] accumulated so far. *)
Definition ws2812_encode_reset (ws : ws2812_encoder_t) (mem : tx_mem)
    (encoded : nat) (st : Z)
    : nat * Z * ws2812_encoder_t * tx_mem :=
  let '(n, session_state, ce, mem) :=
    rmt_copy_encode (copy_encoder ws) mem [reset_code ws] in
  let ws := Ws2812 (bytes_encoder ws) ce (state ws) (reset_code ws) in
  let encoded := (encoded + n)%nat in
  let '(ws, st) :=
    if has_flag session_state RMT_ENCODING_COMPLETE
    then (Ws2812 (bytes_encoder ws) (copy_encoder ws) RMT_ENCODING_RESET
            (reset_code ws),
          Z.lor st RMT_ENCODING_COMPLETE)
    else (ws, st) in
  let st :=
    if has_flag session_state RMT_ENCODING_MEM_FULL
    then Z.lor st RMT_ENCODING_MEM_FULL else st in
  (encoded, st, ws, mem).

(** [ws2812_encode]: returns the number of symbols written, [*ret_state],
    and the updated encoder and channel memory. *)
Definition ws2812_encode (ws : ws2812_encoder_t) (mem : tx_mem) (data : list Z)
    : nat * Z * ws2812_encoder_t * tx_mem :=
  let st := RMT_ENCODING_RESET in
  let encoded := O in
  match state ws with
  | 0 =>
      let '(n, session_state, be, mem) :=
        rmt_bytes_encode (bytes_encoder ws) mem data in
      let ws := Ws2812 be (copy_encoder ws) (state ws) (reset_code ws) in
      let encoded := (encoded + n)%nat in
      let ws :=
        if has_flag session_state RMT_ENCODING_COMPLETE
        then Ws2812 (bytes_encoder ws) (copy_encoder ws) 1 (reset_code ws)
        else ws in
      if has_flag session_state RMT_ENCODING_MEM_FULL
      then (encoded, Z.lor st RMT_ENCODING_MEM_FULL, ws, mem)
      else ws2812_encode_reset ws mem encoded st
  | 1 => ws2812_encode_reset ws mem encoded st
  | _ => (encoded, st, ws, mem)
  end.

(** [ws2812_reset]. *)
Definition ws2812_reset (ws : ws2812_encoder_t) : ws2812_encoder_t :=
  Ws2812 (BytesEnc (bytes_cfg (bytes_encoder ws)) O) (CopyEnc O)
    RMT_ENCODING_RESET (reset_code ws).

(** The bytes-encoder configuration built by [ws2812_encoder_new]. *)
Definition bytes_cfg_ws2812 : rmt_bytes_encoder_config_t :=
  BytesCfg (Symbol 1 3 0 9) (Symbol 1 9 0 3) true.

(** [ws2812_encoder_new].  The three allocations can fail: [calloc_ok]
    tells whether [calloc] returned a block, [bytes_ret] and [copy_ret] are
    the results of [rmt_new_bytes_encoder] and [rmt_new_copy_encoder].  The
    result is the returned [esp_err_t] and the value stored through
    [ret_encoder], if any ([calloc] zero-fills, so [state] starts at 0). *)
Definition ws2812_encoder_new (calloc_ok : bool) (bytes_ret copy_ret : Z)
    : Z * option ws2812_encoder_t :=
  if negb calloc_ok then (ESP_FAIL, None)
  else if negb (bytes_ret =? ESP_OK) then (ESP_FAIL, None)
  else if negb (copy_ret =? ESP_OK) then (ESP_FAIL, None)
  else (ESP_OK,
        Some (Ws2812 (BytesEnc bytes_cfg_ws2812 O) (CopyEnc O) 0
                (Symbol 0 400 0 400))).

(** The encoder [ws2812_encoder_new] builds, as it is before and after
    every complete session. *)
Definition ws2812_idle : ws2812_encoder_t :=
  Ws2812 (BytesEnc bytes_cfg_ws2812 O) (CopyEnc O) 0 (Symbol 0 400 0 400).

(** An encoder between two sessions: phase A, both cursors at the start. *)
Definition encoder_idle (ws : ws2812_encoder_t) : Prop :=
  state ws = 0
  /\ last_bit (bytes_encoder ws) = O
  /\ last_symbol (copy_encoder ws) = O.

(** A payload byte is a [uint8_t]. *)
Definition is_byte (b : Z) : Prop := 0 <= b < 256.

(** ** One transmission *)

(** Modelled from the spec: the driver's side of an encoding session,
    which is not part of the sketch ("caller must drain and resume in
    place - this is a continuation, not a restart").  The first call of the
    encoder sees the whole memory block free, and while the session is not
    complete the encoder is called again each time the hardware has
    drained half of the block ([refill] slots).  [fuel] bounds the number
    of calls.  The result is the total number of symbols, the encoder and
    the memory at the end of the session. *)
Fixpoint rmt_tx_session (fuel : nat) (refill : nat) (ws : ws2812_encoder_t)
    (mem : tx_mem) (data : list Z)
    : option (nat * ws2812_encoder_t * tx_mem) :=
  match fuel with
  | O => None
  | S fuel' =>
      let '(n, st, ws', mem') := ws2812_encode ws mem data in
      if has_flag st RMT_ENCODING_COMPLETE then Some (n, ws', mem')
      else
        match rmt_tx_session fuel' refill ws'
                (TxMem refill (wire mem')) data with
        | Some (m, ws'', mem'') => Some ((n + m)%nat, ws'', mem'')
        | None => None
        end
  end.

(** The frame a payload stands for on the wire: one symbol per bit, then
    the reset symbol. *)
Definition ws2812_frame (ws : ws2812_encoder_t) (data : list Z)
    : list rmt_symbol_word_t :=
  encode_bits (bytes_cfg (bytes_encoder ws)) data O (8 * length data)
    ++ [reset_code ws].

(** ** A simulated receiver *)

(** Modelled from the spec: the simulated decoder of the round-trip
    property, which the sketch does not contain.  A WS2812 tells the two
    bit symbols apart by the length of the high phase; the midpoint of the
    nominal 3 and 9 ticks is the decision threshold. *)
Definition decode_bit (s : rmt_symbol_word_t) : bool :=
  (level0 s =? 1) && (duration0 s >? 6).

(** Eight symbols, most significant bit first, make one byte. *)
Definition decode_byte (syms : list rmt_symbol_word_t) : Z :=
  fold_left (fun acc s => 2 * acc + (if decode_bit s then 1 else 0)) syms 0.

Fixpoint decode_bytes (count : nat) (syms : list rmt_symbol_word_t) : list Z :=
  match count with
  | O => []
  | S c => decode_byte (firstn 8 syms) :: decode_bytes c (skipn 8 syms)
  end.



(** One call of an encoder wrote [n] symbols: it had the room, the room
    shrank by [n], and the wire grew by [n] symbols at its end. *)
Definition wrote (mem mem' : tx_mem) (n : nat) : Prop :=
  (n <= mem_free mem)%nat
  /\ mem_free mem' = (mem_free mem - n)%nat
  /\ exists new, wire mem' = wire mem ++ new /\ length new = n.




End Rmt.

(* ===================================================================== *)
(** * The sketch on its hardware *)
(* ===================================================================== *)

Module Firmware.
Import Battery Rmt.

(** What the sketch does to its peripherals, in program order. *)
Inductive hw_event :=
| LedcTimerConfig (duty_resolution_bits freq_hz : Z)
| LedcChannelConfig (gpio_num duty : Z)
| GpioSetDirection (pin : Z)
| GpioSetLevel (pin level : Z)
| SpiTransmit (byte : Z)
| AnalogRead (pin mv : Z)
| RmtTransmit (payload : list Z) (symbols : list rmt_symbol_word_t).

(** What the platform answers: the analog conversions, in the order they
    are requested, and the result of each driver call that can fail. *)
Record platform := Platform {
  adc_mv : nat -> Z;
  spi_bus_initialize_ret : Z;
  spi_bus_add_device_ret : Z;
  rmt_new_tx_channel_ret : Z;
  calloc_ok : bool;
  rmt_new_bytes_encoder_ret : Z;
  rmt_new_copy_encoder_ret : Z;
  rmt_enable_ret : Z
}.

(** The TX channel behind [led_chan]. *)
Record rmt_tx_channel := TxChan {
  resolution_hz : Z;
  mem_block_symbols : nat;
  enabled : bool
}.

(** The sketch's globals ([led_chan], [led_encoder], [spi_lcd],
    [current_zone], the static [last_update] of [loop]) and the state of
    the world: the millisecond clock, the number of analog conversions
    made, and the trace of peripheral operations. *)
Record machine := Machine {
  led_chan : option rmt_tx_channel;
  led_encoder : option ws2812_encoder_t;
  spi_lcd : option Z;
  current_zone : Z;
  last_update : Z;
  clock : Z;
  adc_reads : nat;
  trace : list hw_event
}.

(** The state at reset: NULL handles, [current_zone = -1],
    [last_update = 0]. *)
Definition boot : machine := Machine None None None (-1) 0 0 O [].

Definition M (A : Type) : Type := machine -> A * machine.

Definition ret {A} (a : A) : M A := fun m => (a, m).

Definition bind {A B} (c : M A) (k : A -> M B) : M B :=
  fun m => let '(a, m') := c m in k a m'.

Declare Scope fw_scope.
Delimit Scope fw_scope with fw.
Notation "x <- c ;; k" := (bind c (fun x => k))
  (at level 61, c at next level, right associativity) : fw_scope.
Notation "c ;; k" := (bind c (fun _ => k))
  (at level 61, right associativity) : fw_scope.
Local Open Scope fw_scope.

(** A peripheral operation ([ledc_timer_config], [ledc_channel_config],
    [gpio_set_direction], [gpio_set_level], [spi_device_polling_transmit])
    is recorded in the trace; its result is ignored, as the sketch does. *)
Definition emit (ev : hw_event) : M unit := fun m =>
  (tt, Machine (led_chan m) (led_encoder m) (spi_lcd m) (current_zone m)
         (last_update m) (clock m) (adc_reads m) (trace m ++ [ev])).

(** [delay(ms)]: the clock advances; time spent computing is not counted. *)
Definition delay (ms : Z) : M unit := fun m =>
  (tt, Machine (led_chan m) (led_encoder m) (spi_lcd m) (current_zone m)
         (last_update m) (clock m + ms) (adc_reads m) (trace m)).

(** [millis()] returns an [unsigned long], 32 bits wide. *)
Definition millis : M Z := fun m => (clock m mod 2 ^ 32, m).

Definition set_led_chan (c : option rmt_tx_channel) : M unit := fun m =>
  (tt, Machine c (led_encoder m) (spi_lcd m) (current_zone m)
         (last_update m) (clock m) (adc_reads m) (trace m)).

Definition set_led_encoder (e : option ws2812_encoder_t) : M unit := fun m =>
  (tt, Machine (led_chan m) e (spi_lcd m) (current_zone m)
         (last_update m) (clock m) (adc_reads m) (trace m)).

Definition set_spi_lcd (d : option Z) : M unit := fun m =>
  (tt, Machine (led_chan m) (led_encoder m) d (current_zone m)
         (last_update m) (clock m) (adc_reads m) (trace m)).

Definition set_current_zone (z : Z) : M unit := fun m =>
  (tt, Machine (led_chan m) (led_encoder m) (spi_lcd m) z
         (last_update m) (clock m) (adc_reads m) (trace m)).

Definition set_last_update (t : Z) : M unit := fun m =>
  (tt, Machine (led_chan m) (led_encoder m) (spi_lcd m) (current_zone m)
         t (clock m) (adc_reads m) (trace m)).

Section Sketch.

Variable hw : platform.

(** [analogReadMilliVolts(pin)]: the next conversion the platform
    delivers. *)
Definition analogReadMilliVolts (pin : Z) : M Z := fun m =>
  let mv := adc_mv hw (adc_reads m) in
  (mv, Machine (led_chan m) (led_encoder m) (spi_lcd m) (current_zone m)
         (last_update m) (clock m) (S (adc_reads m))
         (trace m ++ [AnalogRead pin mv])).

(** The [for] loop of [getBatteryLevel]: [n] more readings, 5 ms apart. *)
Fixpoint sample_loop (n : nat) (sum : Z) : M Z :=
  match n with
  | O => ret sum
  | S k =>
      mv <- analogReadMilliVolts 10 ;;
      delay 5 ;;
      sample_loop k (wrap_long (sum + mv))
  end.

Definition getBatteryLevel : M Z :=
  sum <- sample_loop 8 0 ;;
  ret (level_of_sum sum).

Definition getBatteryColor (level : Z) : M color := fun m =>
  let new_zone := next_zone (current_zone m) level in
  (set_current_zone new_zone ;; ret (zone_color new_zone)) m.

(** Successive calls of the classifier on a sequence of levels; the result
    lists the zone held in [current_zone] after each call. *)
Fixpoint classify_seq (levels : list Z) : M (list Z) :=
  match levels with
  | [] => ret []
  | level :: rest =>
      getBatteryColor level ;;
      zone <- (fun m => (current_zone m, m)) ;;
      zs <- classify_seq rest ;;
      ret (zone :: zs)
  end.

(** Modelled from the spec: the driver's [rmt_transmit], which is not part
    of the sketch ("pushes a ColorSample through the Bitstream Encoder and
    emits the resulting SymbolSequence onto the pin").  A channel that is
    not enabled refuses the job; otherwise the payload goes through one
    encoding session, which leaves its symbols on the wire and the encoder
    in its final state. *)
Definition rmt_transmit (chan : rmt_tx_channel) (ws : ws2812_encoder_t)
    (data : list Z) : M Z :=
  if enabled chan then
    match rmt_tx_session (S (S (8 * length data)))
            (Nat.div (mem_block_symbols chan) 2) ws
            (TxMem (mem_block_symbols chan) []) data with
    | Some (_, ws', mem') =>
        set_led_encoder (Some ws') ;;
        emit (RmtTransmit data (wire mem')) ;;
        ret ESP_OK
    | None => ret ESP_FAIL
    end
  else ret ESP_ERR_INVALID_STATE.

Definition setLedColor (r g b : Z) : M unit := fun m =>
  match led_chan m, led_encoder m with
  | Some chan, Some enc =>
      (rmt_transmit chan enc [g; r; b] ;; ret tt) m
  | _, _ => (tt, m)
  end.

Definition lcd_cmd (cmd : Z) : M unit := fun m =>
  match spi_lcd m with
  | None => (tt, m)
  | Some _ => (emit (GpioSetLevel LCD_DC 0) ;; emit (SpiTransmit cmd)) m
  end.

Definition lcd_data (data : Z) : M unit := fun m =>
  match spi_lcd m with
  | None => (tt, m)
  | Some _ => (emit (GpioSetLevel LCD_DC 1) ;; emit (SpiTransmit data)) m
  end.

Definition lcd_sleep : M unit :=
  emit (GpioSetLevel LCD_RST 0) ;;
  delay 10 ;;
  emit (GpioSetLevel LCD_RST 1) ;;
  delay 120 ;;
  lcd_cmd 17 ;;
  delay 120 ;;
  lcd_cmd 58 ;;
  lcd_data 85 ;;
  lcd_cmd 54 ;;
  lcd_data 96 ;;
  lcd_cmd 40 ;;
  delay 10 ;;
  lcd_cmd 16 ;;
  delay 100.

(** The classify-and-transmit cycle that [setup] and [loop] both spell
    out: read the level, classify it, send the color. *)
Definition update_led : M unit :=
  level <- getBatteryLevel ;;
  c <- getBatteryColor level ;;
  setLedColor (red c) (green c) (blue c).

(** Step 1 of [setup]: the backlight PWM, 14-bit resolution at 1 kHz, its
    duty set to [MIN_BACKLIGHT_DUTY]. *)
Definition setup_backlight : M unit :=
  emit (LedcTimerConfig 14 1000) ;;
  emit (LedcChannelConfig LCD_BL_PIN MIN_BACKLIGHT_DUTY).

(** Step 2 of [setup]: the SPI bus and the display; the display is put to
    sleep only if the bus and the device could be acquired. *)
Definition setup_display : M unit :=
  emit (GpioSetDirection LCD_DC) ;;
  emit (GpioSetDirection LCD_RST) ;;
  let spi_err := spi_bus_initialize_ret hw in
  if (spi_err =? ESP_OK) || (spi_err =? ESP_ERR_INVALID_STATE) then
    if spi_bus_add_device_ret hw =? ESP_OK then
      set_spi_lcd (Some 40000000) ;;
      lcd_sleep
    else ret tt
  else ret tt.

(** Step 4 and 5 of [setup]: each failed driver call returns from [setup]
    at once. *)
Definition setup_led : M unit :=
  if negb (rmt_new_tx_channel_ret hw =? ESP_OK) then ret tt
  else
    set_led_chan (Some (TxChan 10000000 64 false)) ;;
    let '(err, enc) :=
      ws2812_encoder_new (calloc_ok hw) (rmt_new_bytes_encoder_ret hw)
        (rmt_new_copy_encoder_ret hw) in
    if negb (err =? ESP_OK) then ret tt
    else
      set_led_encoder enc ;;
      if negb (rmt_enable_ret hw =? ESP_OK) then ret tt
      else
        set_led_chan (Some (TxChan 10000000 64 true)) ;;
        delay 50 ;;
        update_led.

Definition setup : M unit :=
  setup_backlight ;;
  setup_display ;;
  setup_led.

(** [millis() - last_update] in [unsigned long] arithmetic. *)
Definition elapsed (now last : Z) : Z := (now - last) mod 2 ^ 32.

Definition loop : M unit :=
  now <- millis ;;
  (fun m =>
     (if elapsed now (last_update m) >? BATTERY_UPDATE_MS then
        now' <- millis ;;
        set_last_update now' ;;
        update_led
      else ret tt) m) ;;
  delay 100.

(** [n] iterations of [loop]. *)
Fixpoint loops (n : nat) : M unit :=
  match n with
  | O => ret tt
  | S k => loop ;; loops k
  end.

(** The whole program up to the [n]-th iteration of [loop]. *)
Definition run (n : nat) : machine := snd ((setup ;; loops n) boot).

End Sketch.

(** The [n] conversions the platform delivers from the [k]-th on. *)
Definition adc_samples (hw : platform) (k n : nat) : list Z :=
  map (fun i => adc_mv hw (k + i)%nat) (seq 0 n).

(** Whether the platform lets [setup] acquire the display, and whether it
    lets every step of the LED initialisation succeed. *)
Definition display_acquired (hw : platform) : bool :=
  ((spi_bus_initialize_ret hw =? ESP_OK)
   || (spi_bus_initialize_ret hw =? ESP_ERR_INVALID_STATE))
  && (spi_bus_add_device_ret hw =? ESP_OK).

Definition led_initialized (hw : platform) : bool :=
  (rmt_new_tx_channel_ret hw =? ESP_OK)
  && calloc_ok hw
  && (rmt_new_bytes_encoder_ret hw =? ESP_OK)
  && (rmt_new_copy_encoder_ret hw =? ESP_OK)
  && (rmt_enable_ret hw =? ESP_OK).

(** The handshake [lcd_sleep] performs on an acquired display: reset
    pulse, SLPOUT, COLMOD 0x55, MADCTL 0x60, DISPOFF, SLPIN. *)
Definition lcd_sleep_events : list hw_event :=
  [ GpioSetLevel LCD_RST 0; GpioSetLevel LCD_RST 1;
    GpioSetLevel LCD_DC 0; SpiTransmit 17;
    GpioSetLevel LCD_DC 0; SpiTransmit 58;
    GpioSetLevel LCD_DC 1; SpiTransmit 85;
    GpioSetLevel LCD_DC 0; SpiTransmit 54;
    GpioSetLevel LCD_DC 1; SpiTransmit 96;
    GpioSetLevel LCD_DC 0; SpiTransmit 40;
    GpioSetLevel LCD_DC 0; SpiTransmit 16 ].

(** The value the local variable [voltage] of [getBatteryLevel] takes in a
    call made in state [m]. *)
Definition measured_voltage (hw : platform) (m : machine) : spec_float :=
  voltage_of_sum (fst (sample_loop hw 8 0 m)).

(** The eight conversions of a call of [getBatteryLevel] made in state [m]
    are 16-bit millivolt values. *)
Definition readings_in_range (hw : platform) (m : machine) : Prop :=
  Forall (fun mv => 0 <= mv <= 65535) (adc_samples hw (adc_reads m) 8).

(** The LED path is up: both handles are set, the channel is enabled and
    has a memory block that can be refilled by halves, and the encoder is
    the one [ws2812_encoder_new] built, between two sessions. *)
Definition led_ready (m : machine) : Prop :=
  exists chan,
    led_chan m = Some chan /\ led_encoder m = Some ws2812_idle
    /\ enabled chan = true
    /\ (2 <= mem_block_symbols chan)%nat.

(** ** Observations on a trace *)

Definition is_backlight_write (ev : hw_event) : bool :=
  match ev with
  | LedcChannelConfig _ _ => true
  | _ => false
  end.

(** The events of the battery and LED path. *)
Definition is_led_path (ev : hw_event) : bool :=
  match ev with
  | AnalogRead _ _ | RmtTransmit _ _ => true
  | _ => false
  end.

(** The events of the display path. *)
Definition is_display_path (ev : hw_event) : bool :=
  match ev with
  | GpioSetDirection _ | GpioSetLevel _ _ | SpiTransmit _ => true
  | _ => false
  end.

Definition not_backlight_write (ev : hw_event) : bool :=
  negb (is_backlight_write ev).

(** A computation that only appends events satisfying [P] to the trace. *)
Definition appends {A} (P : hw_event -> bool) (c : M A) : Prop :=
  forall m, exists evs,
    trace (snd (c m)) = trace m ++ evs /\ forallb P evs = true.

(** The duties written to the backlight channel, oldest first. *)
Fixpoint backlight_writes (tr : list hw_event) : list Z :=
  match tr with
  | [] => []
  | LedcChannelConfig _ duty :: rest => duty :: backlight_writes rest
  | _ :: rest => backlight_writes rest
  end.

(** The duty the backlight channel currently holds, if it was ever set. *)
Definition backlight_duty (tr : list hw_event) : option Z :=
  last (map Some (backlight_writes tr)) None.

(** The payloads handed to the LED channel, oldest first. *)
Fixpoint led_frames (tr : list hw_event) : list (list Z) :=
  match tr with
  | [] => []
  | RmtTransmit payload _ :: rest => payload :: led_frames rest
  | _ :: rest => led_frames rest
  end.

(** The bytes sent to the display controller, oldest first. *)
Fixpoint spi_bytes (tr : list hw_event) : list Z :=
  match tr with
  | [] => []
  | SpiTransmit b :: rest => b :: spi_bytes rest
  | _ :: rest => spi_bytes rest
  end.

(** The GPIO lines driven ([gpio_set_level]), oldest first. *)
Fixpoint gpio_levels (tr : list hw_event) : list (Z * Z) :=
  match tr with
  | [] => []
  | GpioSetLevel pin lvl :: rest => (pin, lvl) :: gpio_levels rest
  | _ :: rest => gpio_levels rest
  end.

(** The LED path is down: a handle is still NULL, or the channel was never
    enabled (the state an early [return] of [setup] leaves). *)
Definition led_down (m : machine) : Prop :=
  match led_chan m, led_encoder m with
  | Some chan, Some _ => enabled chan = false
  | _, _ => True
  end.

(** An event other than a transmission, or the transmission of one of the
    four table colors. *)
Definition sends_table_color (ev : hw_event) : bool :=
  match ev with
  | RmtTransmit payload _ =>
      existsb (fun f => if list_eq_dec Z.eq_dec payload f then true else false)
        table_frames
  | _ => true
  end.

End Firmware.

(* ===================================================================== *)
(** * Properties of the classifier *)
(* ===================================================================== *)

Module ClassifierFacts.
Import Battery Rmt Firmware.

Lemma getBatteryColor_run (level : Z) (m : machine) :
  getBatteryColor level m =
    (zone_color (next_zone (current_zone m) level),
     snd (set_current_zone (next_zone (current_zone m) level) m)).
Proof. reflexivity. Qed.

Lemma getBatteryColor_zone (level : Z) (m : machine) :
  current_zone (snd (getBatteryColor level m)) =
    next_zone (current_zone m) level.
Proof. reflexivity. Qed.

Lemma classify_seq_cons (level : Z) (rest : list Z) (m : machine) :
  fst (classify_seq (level :: rest) m) =
    next_zone (current_zone m) level
      :: fst (classify_seq rest (snd (getBatteryColor level m))).
Proof.
  cbn [classify_seq]. unfold bind at 1 2 3.
  rewrite getBatteryColor_run. cbn [snd fst].
  destruct (classify_seq rest _) as [zs m']. reflexivity.
Qed.

Lemma classify_seq_cons_state (level : Z) (rest : list Z) (m : machine) :
  snd (classify_seq (level :: rest) m) =
    snd (classify_seq rest (snd (getBatteryColor level m))).
Proof.
  cbn [classify_seq]. unfold bind at 1 2 3.
  rewrite getBatteryColor_run. cbn [snd fst].
  destruct (classify_seq rest _) as [zs m']. reflexivity.
Qed.

(** Once set, the zone stays within 0..3, and a fresh classifier sets it. *)
Lemma next_zone_range (z level : Z) :
  -1 <= z <= 3 -> 0 <= next_zone z level <= 3.
Proof.
  intros Hz. unfold next_zone.
  repeat match goal with
         | |- context [if ?b then _ else _] => destruct b eqn:?
         end; lia.
Qed.

(** With a zone held, one call moves it by at most one. *)
Lemma next_zone_single_step (z level : Z) :
  0 <= z <= 3 ->
  next_zone z level = z \/ next_zone z level = z + 1
  \/ next_zone z level = z - 1.
Proof.
  intros Hz.
  assert (Hc : z = 0 \/ z = 1 \/ z = 2 \/ z = 3) by lia.
  destruct Hc as [-> | [-> | [-> | ->]]]; unfold next_zone; cbn;
    repeat match goal with
           | |- context [if ?b then _ else _] => destruct b
           end; auto.
Qed.

(** C1 (as amended).  From the unset state, the levels 10, 26, 52, 80, 70
    give the zones 0, 0, 1, 2, 2: the third call moves from zone 0 to zone
    1 only, and the fourth from zone 1 to zone 2. *)
Theorem classify_scenario_steps_one_zone (m : machine) :
  current_zone m = -1 ->
  fst (classify_seq [10; 26; 52; 80; 70] m) = [0; 0; 1; 2; 2].
Proof.
  intros H.
  repeat (rewrite classify_seq_cons, ?getBatteryColor_zone).
  repeat rewrite ?getBatteryColor_zone.
  rewrite H. reflexivity.
Qed.

Lemma classify_scenario_steps_one_zone_witness :
  current_zone boot = -1 /\
  fst (classify_seq [10; 26; 52; 80; 70] boot) = [0; 0; 1; 2; 2].
Proof.
  split; [reflexivity |].
  apply (classify_scenario_steps_one_zone boot). reflexivity.
Defined.

(** The scenario as the specification words it does not hold: the zones
    are not 0, 0, 2, 3, 2. *)
Lemma classify_scenario_no_jump :
  current_zone boot = -1 /\
  fst (classify_seq [10; 26; 52; 80; 70] boot) <> [0; 0; 2; 3; 2].
Proof. split; [reflexivity | discriminate]. Qed.

(** ** Hysteresis bands *)

(** Case analysis on a held zone and on every comparison of [next_zone]. *)
Ltac zone_cases z level :=
  let Hc := fresh "Hc" in
  assert (Hc : z = 0 \/ z = 1 \/ z = 2 \/ z = 3) by lia;
  unfold next_zone, plain_threshold;
  destruct Hc as [-> | [-> | [-> | ->]]]; cbn;
  destruct (Z.ltb_spec level 22); destruct (Z.ltb_spec level 47);
  destruct (Z.ltb_spec level 72);
  rewrite ?Z.geb_leb;
  destruct (Z.leb_spec 28 level); destruct (Z.leb_spec 53 level);
  destruct (Z.leb_spec 78 level); cbn; lia.

(** Inputs between the two bands around 25 move neither zone 0 nor zone 1. *)
Lemma next_zone_dead_band (z level : Z) :
  0 <= z <= 1 -> 22 <= level < 28 -> next_zone z level = z.
Proof.
  intros Hz Hl.
  assert (Hc : z = 0 \/ z = 1) by lia.
  unfold next_zone.
  destruct Hc as [-> | ->]; cbn;
    destruct (level >=? 28) eqn:E1, (level <? 22) eqn:E2,
             (level >=? 53) eqn:E3; try reflexivity; lia.
Qed.

Lemma classify_seq_dead_band (levels : list Z) :
  forall m : machine,
    0 <= current_zone m <= 1 ->
    Forall (fun level => level = 24 \/ level = 26) levels ->
    Forall (fun zone => zone = current_zone m) (fst (classify_seq levels m))
    /\ current_zone (snd (classify_seq levels m)) = current_zone m.
Proof.
  induction levels as [| level rest IH]; intros m Hz Hall.
  - split; [constructor | reflexivity].
  - inversion Hall as [| ? ? Hl Hrest]; subst.
    assert (Hstay : next_zone (current_zone m) level = current_zone m)
      by (apply next_zone_dead_band; lia).
    rewrite classify_seq_cons, classify_seq_cons_state.
    destruct (IH (snd (getBatteryColor level m))) as [IH1 IH2].
    + rewrite getBatteryColor_zone, Hstay. exact Hz.
    + exact Hrest.
    + rewrite getBatteryColor_zone, Hstay in IH1, IH2.
      split; [constructor; [exact Hstay | exact IH1] | exact IH2].
Qed.

(** From the unset state: whatever the first of the inputs 24, 26 is
    classified as, the inputs that follow keep that zone. *)
Lemma fresh_alternating_inputs_are_stable (m : machine) (first : Z)
    (rest : list Z) :
  current_zone m = -1 ->
  first = 24 \/ first = 26 ->
  Forall (fun l => l = 24 \/ l = 26) rest ->
  let initial := current_zone (snd (getBatteryColor first m)) in
  (first = 24 -> initial = 0)
  /\ (first = 26 -> initial = 1)
  /\ Forall (fun zone => zone = initial)
       (fst (classify_seq (first :: rest) m))
  /\ current_zone (snd (classify_seq (first :: rest) m)) = initial.
Proof.
  intros Hm Hfirst Hrest. cbv zeta.
  rewrite classify_seq_cons, classify_seq_cons_state.
  assert (Hz : 0 <= current_zone (snd (getBatteryColor first m)) <= 1)
    by (rewrite getBatteryColor_zone, Hm;
        destruct Hfirst as [-> | ->]; cbn; lia).
  destruct (classify_seq_dead_band rest (snd (getBatteryColor first m)) Hz
              Hrest) as [H1 H2].
  rewrite getBatteryColor_zone in *. rewrite Hm in *.
  split; [intros ->; reflexivity |].
  split; [intros ->; reflexivity |].
  split; [apply Forall_cons; [reflexivity | exact H1] | exact H2].
Qed.

(** C7.  With zone [k] held, a call advances to [k + 1] exactly when the
    level is at least 3 above the plain threshold (28 from zone 0),
    recedes to [k - 1] exactly when it is strictly below the plain
    threshold minus 3 (22 from zone 1), and never moves further.
    Consequently inputs alternating between 24 and 26 never change the
    zone from its initial classification: a classifier that holds zone 0
    or zone 1 keeps it, and a fresh classifier keeps the zone its first
    input was given, 0 for 24 and 1 for 26. *)
Theorem hysteresis_bands (m : machine) (level first : Z) (levels : list Z) :
  (0 <= current_zone m <= 3 ->
   let k := current_zone m in
   let k' := current_zone (snd (getBatteryColor level m)) in
   (k' = k + 1 <-> k <= 2 /\ level >= plain_threshold k + 3)
   /\ (k' = k - 1 <-> 1 <= k /\ level < plain_threshold (k - 1) - 3)
   /\ (k' = k \/ k' = k + 1 \/ k' = k - 1)
   /\ (k <= 1 ->
       Forall (fun l => l = 24 \/ l = 26) levels ->
       Forall (fun zone => zone = k) (fst (classify_seq levels m))
       /\ current_zone (snd (classify_seq levels m)) = k))
  /\ (current_zone m = -1 ->
      first = 24 \/ first = 26 ->
      Forall (fun l => l = 24 \/ l = 26) levels ->
      let initial := current_zone (snd (getBatteryColor first m)) in
      (first = 24 -> initial = 0)
      /\ (first = 26 -> initial = 1)
      /\ Forall (fun zone => zone = initial)
           (fst (classify_seq (first :: levels) m))
      /\ current_zone (snd (classify_seq (first :: levels) m)) = initial).
Proof.
  split.
  - intros Hz k k'. subst k k'. rewrite getBatteryColor_zone.
    split; [| split; [| split]].
    + zone_cases (current_zone m) level.
    + zone_cases (current_zone m) level.
    + apply next_zone_single_step; exact Hz.
    + intros Hk Hall. apply classify_seq_dead_band; [lia | exact Hall].
  - apply fresh_alternating_inputs_are_stable.
Qed.

Lemma hysteresis_bands_witness :
  Forall (fun zone => zone = 1)
    (fst (classify_seq [24; 26; 24; 26] (snd (getBatteryColor 26 boot))))
  /\ Forall (fun zone => zone = 0)
       (fst (classify_seq [24; 26; 24; 26; 24] boot))
  /\ Forall (fun zone => zone = 1)
       (fst (classify_seq [26; 24; 26; 24; 26] boot)).
Proof.
  assert (Hall : Forall (fun l => l = 24 \/ l = 26) [24; 26; 24; 26])
    by (repeat (apply Forall_cons; [lia |]); apply Forall_nil).
  assert (Hall' : Forall (fun l => l = 24 \/ l = 26) [26; 24; 26; 24])
    by (repeat (apply Forall_cons; [lia |]); apply Forall_nil).
  split; [| split].
  - destruct (hysteresis_bands (snd (getBatteryColor 26 boot)) 24 24
                [24; 26; 24; 26]) as [Hheld _].
    assert (Hz : 0 <= current_zone (snd (getBatteryColor 26 boot)) <= 3)
      by (cbn; lia).
    destruct (Hheld Hz) as (_ & _ & _ & Hseq).
    apply Hseq; [cbn; lia | exact Hall].
  - destruct (hysteresis_bands boot 24 24 [26; 24; 26; 24]) as [_ Hfresh].
    destruct (Hfresh eq_refl (or_introl eq_refl) Hall')
      as (H24 & _ & Hzones & _).
    rewrite (H24 eq_refl) in Hzones. exact Hzones.
  - destruct (hysteresis_bands boot 26 26 [24; 26; 24; 26]) as [_ Hfresh].
    destruct (Hfresh eq_refl (or_intror eq_refl) Hall)
      as (_ & H26 & Hzones & _).
    rewrite (H26 eq_refl) in Hzones. exact Hzones.
Defined.

(** ** Zone colors *)

(** C9.  On the zones 0..3 the color assigned by [getBatteryColor] is the
    entry of the fixed table, whatever the rest of the state; every zone
    has an entry, and all three channels are assigned. *)
Theorem zone_color_is_table (zone : Z) :
  0 <= zone <= 3 ->
  table_lookup zone color_table = Some (zone_color zone)
  /\ forall (m : machine) (level : Z),
       current_zone (snd (getBatteryColor level m)) = zone ->
       fst (getBatteryColor level m) = zone_color zone
       /\ table_lookup zone color_table
          = Some (RGB (red (fst (getBatteryColor level m)))
                      (green (fst (getBatteryColor level m)))
                      (blue (fst (getBatteryColor level m)))).
Proof.
  intros Hz.
  assert (Hc : zone = 0 \/ zone = 1 \/ zone = 2 \/ zone = 3) by lia.
  split.
  - destruct Hc as [-> | [-> | [-> | ->]]]; reflexivity.
  - intros m level Hm. rewrite getBatteryColor_run in *. cbn [fst snd] in *.
    cbn in Hm. rewrite Hm.
    destruct Hc as [-> | [-> | [-> | ->]]]; split; reflexivity.
Qed.

Lemma zone_color_is_table_witness :
  table_lookup 1 color_table = Some (RGB 255 128 0)
  /\ fst (getBatteryColor 30 boot) = RGB 255 128 0.
Proof.
  destruct (zone_color_is_table 1) as [Ht Hc]; [lia |].
  split; [exact Ht |].
  apply (Hc boot 30). reflexivity.
Defined.

End ClassifierFacts.

(* ===================================================================== *)
(** * Properties of the encoder *)
(* ===================================================================== *)

Module EncoderFacts.
Import Battery Rmt Firmware.

Lemma forall_from_spec (P : Z -> bool) (n : nat) :
  forall a,
    forall_from n a P = true ->
    forall z, a <= z < a + Z.of_nat n -> P z = true.
Proof.
  induction n as [| k IH]; intros a H z Hz.
  - cbn in Hz. lia.
  - cbn [forall_from] in H.
    destruct (P a) eqn:Ha; [| discriminate].
    destruct (Z.eq_dec z a) as [-> | Hne]; [exact Ha |].
    apply (IH (a + 1)); [exact H | lia].
Qed.

Lemma firstn_exact (A : Type) (n : nat) (a b : list A) :
  length a = n -> firstn n (a ++ b) = a.
Proof.
  intros <-. rewrite firstn_app, Nat.sub_diag, firstn_O, app_nil_r.
  apply firstn_all.
Qed.

Lemma skipn_exact (A : Type) (n : nat) (a b : list A) :
  length a = n -> skipn n (a ++ b) = b.
Proof.
  intros <-. rewrite skipn_app, Nat.sub_diag, skipn_O, skipn_all.
  reflexivity.
Qed.

(** ** The bit symbols of a payload *)

Lemma encode_bits_length cfg data count :
  forall from, length (encode_bits cfg data from count) = count.
Proof.
  induction count as [| c IH]; intros from; cbn; [reflexivity |].
  now rewrite IH.
Qed.

Lemma encode_bits_app cfg data a b :
  forall from,
    encode_bits cfg data from (a + b)
    = encode_bits cfg data from a ++ encode_bits cfg data (from + a) b.
Proof.
  induction a as [| a IH]; intros from; cbn.
  - now rewrite Nat.add_0_r.
  - rewrite IH. now rewrite Nat.add_succ_r.
Qed.

Lemma encode_bits_nth cfg data count d :
  forall from i, (i < count)%nat ->
    nth i (encode_bits cfg data from count) d
    = if data_bit (msb_first cfg) data (from + i) then bit1 cfg else bit0 cfg.
Proof.
  induction count as [| c IH]; intros from i Hi; [lia |].
  destruct i as [| i]; cbn.
  - now rewrite Nat.add_0_r.
  - rewrite IH by lia. now rewrite Nat.add_succ_r.
Qed.

(** Bits 8 and up of [b :: data] are the bits of [data]. *)
Lemma data_bit_tail msb b data i :
  data_bit msb (b :: data) (8 + i) = data_bit msb data i.
Proof.
  unfold data_bit.
  replace ((8 + i) / 8)%nat with (S (i / 8))%nat.
  - replace ((8 + i) mod 8)%nat with (i mod 8)%nat; [reflexivity |].
    replace (8 + i)%nat with (i + 1 * 8)%nat by lia.
    now rewrite Nat.Div0.mod_add.
  - replace (8 + i)%nat with (i + 1 * 8)%nat by lia.
    rewrite Nat.div_add by lia. lia.
Qed.

Lemma encode_bits_tail cfg b data count :
  forall from,
    encode_bits cfg (b :: data) (8 + from) count
    = encode_bits cfg data from count.
Proof.
  induction count as [| c IH]; intros from; [reflexivity |].
  cbn [encode_bits]. rewrite data_bit_tail. f_equal.
  exact (IH (S from)).
Qed.

(** The first eight bits of a payload are those of its first byte. *)
Lemma encode_bits_head cfg b data :
  encode_bits cfg (b :: data) 0 8 = encode_bits cfg [b] 0 8.
Proof. reflexivity. Qed.

Lemma encode_bits_cons cfg b data :
  encode_bits cfg (b :: data) 0 (8 * length (b :: data))
  = encode_bits cfg [b] 0 8 ++ encode_bits cfg data 0 (8 * length data).
Proof.
  replace (8 * length (b :: data))%nat with (8 + 8 * length data)%nat
    by (cbn [length]; lia).
  rewrite encode_bits_app, encode_bits_head.
  f_equal. exact (encode_bits_tail cfg b data (8 * length data) 0).
Qed.

(** ** Decoding *)

Lemma decode_encode_byte (b : Z) :
  is_byte b -> decode_byte (encode_bits bytes_cfg_ws2812 [b] 0 8) = b.
Proof.
  intros Hb.
  assert (H : forall_from 256 0
                (fun z =>
                   decode_byte (encode_bits bytes_cfg_ws2812 [z] 0 8) =? z)
              = true) by (vm_compute; reflexivity).
  apply Z.eqb_eq.
  exact (forall_from_spec _ 256 0 H b Hb).
Qed.

Lemma decode_encode_bytes (data : list Z) :
  Forall is_byte data ->
  forall rest,
    decode_bytes (length data)
      (encode_bits bytes_cfg_ws2812 data 0 (8 * length data) ++ rest)
    = data.
Proof.
  induction data as [| b data IH]; intros Hall rest; [reflexivity |].
  inversion Hall as [| ? ? Hb Hrest]; subst.
  rewrite encode_bits_cons. cbn [length decode_bytes].
  rewrite <- app_assoc.
  assert (Hlen : length (encode_bits bytes_cfg_ws2812 [b] 0 8) = 8%nat)
    by apply encode_bits_length.
  rewrite (firstn_exact _ _ _ _ Hlen), (skipn_exact _ _ _ _ Hlen).
  rewrite decode_encode_byte by exact Hb.
  f_equal. apply IH. exact Hrest.
Qed.

(** ** One call of the encoder, memory permitting *)

Lemma rmt_bytes_encode_fits enc free w data :
  last_bit enc = O ->
  (8 * length data < free)%nat ->
  rmt_bytes_encode enc (TxMem free w) data
  = ((8 * length data)%nat, RMT_ENCODING_COMPLETE, enc,
     TxMem (free - 8 * length data)
       (w ++ encode_bits (bytes_cfg enc) data O (8 * length data))).
Proof.
  destruct enc as [cfg lb]. cbn [last_bit bytes_cfg]. intros -> Hfree.
  unfold rmt_bytes_encode. cbn [last_bit bytes_cfg mem_free wire].
  rewrite Nat.sub_0_r, Nat.min_l by lia.
  rewrite Nat.eqb_refl.
  assert (E : Nat.eqb (free - 8 * length data) 0 = false)
    by (apply Nat.eqb_neq; lia).
  rewrite E. reflexivity.
Qed.

Lemma rmt_copy_encode_fits enc free w s :
  last_symbol enc = O ->
  (1 < free)%nat ->
  rmt_copy_encode enc (TxMem free w) [s]
  = (1%nat, RMT_ENCODING_COMPLETE, enc, TxMem (free - 1) (w ++ [s])).
Proof.
  destruct enc as [ls]. cbn [last_symbol]. intros -> Hfree.
  unfold rmt_copy_encode. cbn [last_symbol mem_free wire length skipn].
  replace (Nat.min (1 - 0) free) with 1%nat by lia.
  assert (E : Nat.eqb (free - 1) 0 = false) by (apply Nat.eqb_neq; lia).
  rewrite E. reflexivity.
Qed.

Lemma ws2812_encode_whole ws free w data :
  encoder_idle ws ->
  (8 * length data + 1 < free)%nat ->
  ws2812_encode ws (TxMem free w) data
  = ((8 * length data + 1)%nat, RMT_ENCODING_COMPLETE, ws,
     TxMem (free - (8 * length data + 1)) (w ++ ws2812_frame ws data)).
Proof.
  destruct ws as [be ce st rc].
  unfold encoder_idle. cbn [state bytes_encoder copy_encoder].
  intros (-> & Hb & Hc) Hfree.
  unfold ws2812_encode, ws2812_frame.
  cbn [state bytes_encoder copy_encoder reset_code].
  rewrite rmt_bytes_encode_fits by (assumption || lia).
  cbn -[Nat.mul Nat.sub Nat.add ws2812_encode_reset].
  unfold ws2812_encode_reset.
  cbn [state bytes_encoder copy_encoder reset_code].
  rewrite rmt_copy_encode_fits by (assumption || lia).
  cbn -[Nat.mul Nat.sub Nat.add].
  rewrite <- app_assoc, Nat.add_0_l.
  replace (free - 8 * length data - 1)%nat
    with (free - (8 * length data + 1))%nat by lia.
  reflexivity.
Qed.

(** ** The encoder call by call

    Phase B: the reset symbol is pending. *)
Lemma ws2812_encode_reset_run be rc st0 free w encoded acc :
  ws2812_encode_reset (Ws2812 be (CopyEnc O) st0 rc) (TxMem free w) encoded acc
  = match free with
    | O => (encoded, Z.lor acc RMT_ENCODING_MEM_FULL,
            Ws2812 be (CopyEnc O) st0 rc, TxMem O w)
    | S free' =>
        (S encoded,
         (if Nat.eqb free' 0
          then Z.lor (Z.lor acc RMT_ENCODING_COMPLETE) RMT_ENCODING_MEM_FULL
          else Z.lor acc RMT_ENCODING_COMPLETE),
         Ws2812 be (CopyEnc O) RMT_ENCODING_RESET rc,
         TxMem free' (w ++ [rc]))
    end.
Proof.
  unfold ws2812_encode_reset, rmt_copy_encode.
  cbn [copy_encoder bytes_encoder state reset_code last_symbol mem_free wire
       length skipn Nat.sub].
  destruct free as [| free'].
  - cbn [Nat.min Nat.eqb Nat.sub Nat.add firstn].
    rewrite app_nil_r, Nat.add_0_r. reflexivity.
  - cbn [Nat.min Nat.eqb Nat.sub Nat.add firstn].
    rewrite Nat.sub_0_r.
    destruct (Nat.eqb free' 0); cbn; rewrite Nat.add_1_r; reflexivity.
Qed.

Lemma ws2812_encode_partial cfg p rc free w data :
  (free < 8 * length data - p)%nat ->
  ws2812_encode (Ws2812 (BytesEnc cfg p) (CopyEnc O) 0 rc) (TxMem free w) data
  = (free, RMT_ENCODING_MEM_FULL,
     Ws2812 (BytesEnc cfg (p + free)) (CopyEnc O) 0 rc,
     TxMem O (w ++ encode_bits cfg data p free)).
Proof.
  intros H. unfold ws2812_encode, rmt_bytes_encode.
  cbn [state bytes_encoder copy_encoder reset_code last_bit bytes_cfg
       mem_free wire].
  rewrite Nat.min_r by lia.
  assert (E : Nat.eqb free (8 * length data - p) = false)
    by (apply Nat.eqb_neq; lia).
  rewrite E, Nat.sub_diag. reflexivity.
Qed.

Lemma ws2812_encode_exact cfg p rc w data :
  ws2812_encode (Ws2812 (BytesEnc cfg p) (CopyEnc O) 0 rc)
    (TxMem (8 * length data - p) w) data
  = ((8 * length data - p)%nat, RMT_ENCODING_MEM_FULL,
     Ws2812 (BytesEnc cfg O) (CopyEnc O) 1 rc,
     TxMem O (w ++ encode_bits cfg data p (8 * length data - p))).
Proof.
  unfold ws2812_encode, rmt_bytes_encode.
  cbn [state bytes_encoder copy_encoder reset_code last_bit bytes_cfg
       mem_free wire].
  rewrite Nat.min_id, Nat.eqb_refl, Nat.sub_diag. reflexivity.
Qed.

Lemma ws2812_encode_through cfg p rc free w data :
  (8 * length data - p < free)%nat ->
  ws2812_encode (Ws2812 (BytesEnc cfg p) (CopyEnc O) 0 rc) (TxMem free w) data
  = ws2812_encode_reset (Ws2812 (BytesEnc cfg O) (CopyEnc O) 1 rc)
      (TxMem (free - (8 * length data - p))
         (w ++ encode_bits cfg data p (8 * length data - p)))
      (8 * length data - p) RMT_ENCODING_RESET.
Proof.
  intros H. unfold ws2812_encode, rmt_bytes_encode.
  cbn [state bytes_encoder copy_encoder reset_code last_bit bytes_cfg
       mem_free wire].
  rewrite Nat.min_l by lia. rewrite Nat.eqb_refl.
  assert (E : Nat.eqb (free - (8 * length data - p)) 0 = false)
    by (apply Nat.eqb_neq; lia).
  rewrite E. reflexivity.
Qed.

(** ** A whole session, whatever the memory *)

Lemma rmt_tx_session_reset fuel refill be rc free w data :
  (1 <= refill)%nat -> (2 <= fuel)%nat ->
  exists free',
    rmt_tx_session fuel refill (Ws2812 be (CopyEnc O) 1 rc) (TxMem free w) data
    = Some (1%nat, Ws2812 be (CopyEnc O) 0 rc, TxMem free' (w ++ [rc])).
Proof.
  intros Hr Hf.
  destruct fuel as [| [| fuel]]; try lia.
  destruct refill as [| refill]; try lia.
  cbn [rmt_tx_session]. unfold ws2812_encode. cbn [state].
  rewrite ws2812_encode_reset_run.
  destruct free as [| free'].
  - change (has_flag (Z.lor RMT_ENCODING_RESET RMT_ENCODING_MEM_FULL)
              RMT_ENCODING_COMPLETE) with false.
    cbv iota. cbn [wire state]. rewrite ws2812_encode_reset_run.
    exists refill. destruct (Nat.eqb refill 0); reflexivity.
  - exists free'. destruct (Nat.eqb free' 0); reflexivity.
Qed.

Lemma rmt_tx_session_payload cfg rc data refill :
  (1 <= refill)%nat ->
  forall fuel p free w,
    (1 <= free)%nat ->
    (p <= 8 * length data)%nat ->
    (8 * length data - p + 2 <= fuel)%nat ->
    exists free',
      rmt_tx_session fuel refill
        (Ws2812 (BytesEnc cfg p) (CopyEnc O) 0 rc) (TxMem free w) data
      = Some ((8 * length data - p + 1)%nat,
              Ws2812 (BytesEnc cfg O) (CopyEnc O) 0 rc,
              TxMem free'
                (w ++ encode_bits cfg data p (8 * length data - p) ++ [rc])).
Proof.
  intros Hr.
  induction fuel as [| fuel IH]; intros p free w Hfree Hp Hfuel; [lia |].
  cbn [rmt_tx_session].
  destruct (Nat.lt_trichotomy free (8 * length data - p))
    as [Hlt | [Heq | Hgt]].
  - rewrite ws2812_encode_partial by exact Hlt.
    change (has_flag RMT_ENCODING_MEM_FULL RMT_ENCODING_COMPLETE) with false.
    cbv iota. cbn [wire].
    destruct (IH (p + free)%nat refill (w ++ encode_bits cfg data p free))
      as (free' & E); try lia.
    rewrite E. exists free'.
    assert (Hsplit : encode_bits cfg data p (8 * length data - p)
                     = encode_bits cfg data p free
                       ++ encode_bits cfg data (p + free)
                            (8 * length data - (p + free))).
    { rewrite <- encode_bits_app. f_equal. lia. }
    rewrite Hsplit, <- !app_assoc.
    replace (free + (8 * length data - (p + free) + 1))%nat
      with (8 * length data - p + 1)%nat by lia.
    reflexivity.
  - subst free. rewrite ws2812_encode_exact.
    change (has_flag RMT_ENCODING_MEM_FULL RMT_ENCODING_COMPLETE) with false.
    cbv iota. cbn [wire].
    destruct (rmt_tx_session_reset fuel refill (BytesEnc cfg O) rc refill
                (w ++ encode_bits cfg data p (8 * length data - p)) data)
      as (free' & E); try lia.
    rewrite E. exists free'. rewrite <- app_assoc. reflexivity.
  - rewrite ws2812_encode_through by exact Hgt.
    rewrite ws2812_encode_reset_run.
    destruct (free - (8 * length data - p))%nat as [| free'] eqn:Ef; [lia |].
    exists free'.
    replace (8 * length data - p + 1)%nat with (S (8 * length data - p))
      by lia.
    rewrite <- app_assoc.
    destruct (Nat.eqb free' 0); reflexivity.
Qed.

(** Whatever the size of the memory block, as long as it is refilled, a
    session started on an idle encoder puts the whole frame on the wire,
    in order and once, and leaves the encoder idle again. *)
Lemma rmt_tx_session_frame fuel refill ws free w data :
  encoder_idle ws ->
  (1 <= refill)%nat -> (1 <= free)%nat ->
  (8 * length data + 2 <= fuel)%nat ->
  exists free',
    rmt_tx_session fuel refill ws (TxMem free w) data
    = Some ((8 * length data + 1)%nat, ws,
            TxMem free' (w ++ ws2812_frame ws data)).
Proof.
  destruct ws as [[cfg p] [q] st rc].
  unfold encoder_idle. cbn [state bytes_encoder copy_encoder last_bit
                            last_symbol].
  intros (-> & -> & ->) Hr Hfree Hfuel.
  destruct (rmt_tx_session_payload cfg rc data refill Hr fuel O free w)
    as (free' & E); try lia.
  rewrite Nat.sub_0_r in E. rewrite E. exists free'. reflexivity.
Qed.

(** What [ws2812_encoder_new] hands out when it succeeds. *)
Lemma ws2812_encoder_new_ok calloc_ok bytes_ret copy_ret err ws :
  ws2812_encoder_new calloc_ok bytes_ret copy_ret = (err, Some ws) ->
  err = ESP_OK
  /\ ws = Ws2812 (BytesEnc bytes_cfg_ws2812 O) (CopyEnc O) 0
            (Symbol 0 400 0 400).
Proof.
  unfold ws2812_encoder_new.
  destruct (negb calloc_ok); [discriminate |].
  destruct (negb (bytes_ret =? ESP_OK)); [discriminate |].
  destruct (negb (copy_ret =? ESP_OK)); [discriminate |].
  intros H. inversion H. split; reflexivity.
Qed.

Lemma ws2812_encoder_new_fail calloc_ok bytes_ret copy_ret :
  snd (ws2812_encoder_new calloc_ok bytes_ret copy_ret) = None ->
  fst (ws2812_encoder_new calloc_ok bytes_ret copy_ret) = ESP_FAIL.
Proof.
  unfold ws2812_encoder_new.
  destruct (negb calloc_ok); [reflexivity |].
  destruct (negb (bytes_ret =? ESP_OK)); [reflexivity |].
  destruct (negb (copy_ret =? ESP_OK)); [reflexivity |].
  discriminate.
Qed.

(** C4.  With the 64-symbol memory block of the LED channel, encoding a
    3-byte payload takes one call of [ws2812_encode]: it writes 25 symbols,
    reports completion and leaves the encoder ready for the next frame.
    The first 24 symbols are the bits of the three bytes in order, most
    significant bit first, the 25th is the reset symbol, and decoding the 24
    bit symbols by their nominal high time gives back the three bytes.  A
    session that has to stop and resume because the memory is smaller puts
    the same 25 symbols on the wire. *)
Theorem ws2812_round_trip (calloc_ok : bool) (bytes_ret copy_ret err : Z)
    (ws : ws2812_encoder_t) (b0 b1 b2 : Z) :
  ws2812_encoder_new calloc_ok bytes_ret copy_ret = (err, Some ws) ->
  is_byte b0 -> is_byte b1 -> is_byte b2 ->
  let data := [b0; b1; b2] in
  let '(encoded, ret_state, ws', mem') :=
    ws2812_encode ws (TxMem 64 []) data in
  encoded = 25%nat
  /\ ret_state = RMT_ENCODING_COMPLETE
  /\ ws' = ws
  /\ length (wire mem') = 25%nat
  /\ (forall i, (i < 24)%nat ->
        nth i (wire mem') (Symbol 0 0 0 0)
        = if Z.testbit (nth (i / 8) data 0) (7 - Z.of_nat (i mod 8))
          then Symbol 1 9 0 3 else Symbol 1 3 0 9)
  /\ skipn 24 (wire mem') = [Symbol 0 400 0 400]
  /\ decode_bytes 3 (firstn 24 (wire mem')) = data
  /\ (forall fuel refill free,
        (1 <= refill)%nat -> (1 <= free)%nat -> (26 <= fuel)%nat ->
        exists free',
          rmt_tx_session fuel refill ws (TxMem free []) data
          = Some (25%nat, ws, TxMem free' (wire mem'))).
Proof.
  intros Hnew H0 H1 H2 data.
  apply ws2812_encoder_new_ok in Hnew. destruct Hnew as [_ ->].
  fold ws2812_idle.
  rewrite ws2812_encode_whole;
    [| repeat split | subst data; cbn [length]; lia].
  cbn [app wire].
  assert (Hframe : ws2812_frame ws2812_idle data
                   = encode_bits bytes_cfg_ws2812 data 0 (8 * length data)
                     ++ [Symbol 0 400 0 400]) by reflexivity.
  set (bits := encode_bits bytes_cfg_ws2812 data 0 (8 * length data)) in *.
  assert (Hlen : length bits = 24%nat) by apply encode_bits_length.
  split; [reflexivity |]. split; [reflexivity |]. split; [reflexivity |].
  split; [rewrite Hframe, length_app, Hlen; reflexivity |].
  split.
  { intros i Hi. rewrite Hframe, app_nth1 by lia.
    subst bits. rewrite encode_bits_nth by (subst data; cbn [length]; lia).
    reflexivity. }
  split; [rewrite Hframe; apply skipn_exact; exact Hlen |].
  split.
  { rewrite Hframe, (firstn_exact _ _ _ _ Hlen).
    rewrite <- (app_nil_r bits). subst bits.
    apply (decode_encode_bytes data).
    subst data.
    apply Forall_cons; [exact H0 |]. apply Forall_cons; [exact H1 |].
    apply Forall_cons; [exact H2 |]. apply Forall_nil. }
  intros fuel refill free Hr Hfree Hfuel.
  destruct (rmt_tx_session_frame fuel refill ws2812_idle free [] data)
    as (free' & E); try assumption.
  - repeat split.
  - exists free'. rewrite E. reflexivity.
Qed.

Lemma ws2812_round_trip_witness :
  is_byte 255 /\ is_byte 128 /\ is_byte 0
  /\ fst (fst (fst (ws2812_encode
                      (Ws2812 (BytesEnc bytes_cfg_ws2812 O) (CopyEnc O) 0
                         (Symbol 0 400 0 400))
                      (TxMem 64 []) [255; 128; 0]))) = 25%nat
  /\ decode_bytes 3
       (firstn 24
          (wire (snd (ws2812_encode
                        (Ws2812 (BytesEnc bytes_cfg_ws2812 O) (CopyEnc O) 0
                           (Symbol 0 400 0 400))
                        (TxMem 64 []) [255; 128; 0]))))
     = [255; 128; 0].
Proof.
  assert (Ha : is_byte 255) by (unfold is_byte; lia).
  assert (Hb : is_byte 128) by (unfold is_byte; lia).
  assert (Hc : is_byte 0) by (unfold is_byte; lia).
  pose proof (ws2812_round_trip true ESP_OK ESP_OK ESP_OK
                (Ws2812 (BytesEnc bytes_cfg_ws2812 O) (CopyEnc O) 0
                   (Symbol 0 400 0 400))
                255 128 0 eq_refl Ha Hb Hc) as H.
  cbv zeta in H.
  destruct (ws2812_encode _ _ _) as [[[encoded ret_state] ws'] mem'].
  destruct H as (H & _ & _ & _ & _ & _ & Hd & _).
  repeat split; try assumption; unfold is_byte in *; lia.
Defined.

End EncoderFacts.

(* ===================================================================== *)
(** * Properties of the sketch on its hardware *)
(* ===================================================================== *)

Module FirmwareFacts.
Import Battery Rmt Firmware EncoderFacts ClassifierFacts.
Local Open Scope fw_scope.

(** ** What each function does to the machine *)

Lemma adc_samples_succ hw k n :
  adc_samples hw k (S n) = adc_mv hw k :: adc_samples hw (S k) n.
Proof.
  unfold adc_samples. cbn [seq map]. rewrite Nat.add_0_r. f_equal.
  rewrite <- seq_shift, map_map. apply map_ext. intros i. f_equal. lia.
Qed.

Lemma adc_samples_length hw k n : length (adc_samples hw k n) = n.
Proof. unfold adc_samples. now rewrite length_map, length_seq. Qed.

Lemma sample_loop_run hw n :
  forall sum m,
    sample_loop hw n sum m
    = (fold_left (fun s mv => wrap_long (s + mv))
         (adc_samples hw (adc_reads m) n) sum,
       Machine (led_chan m) (led_encoder m) (spi_lcd m) (current_zone m)
         (last_update m) (clock m + 5 * Z.of_nat n) (adc_reads m + n)
         (trace m ++ map (AnalogRead 10) (adc_samples hw (adc_reads m) n))).
Proof.
  induction n as [| n IH]; intros sum m.
  - cbn. destruct m; cbn. rewrite Z.add_0_r, Nat.add_0_r, app_nil_r.
    reflexivity.
  - cbn [sample_loop]. unfold bind at 1 2.
    unfold analogReadMilliVolts at 1, delay at 1.
    rewrite IH.
    cbn [led_chan led_encoder spi_lcd current_zone last_update clock
         adc_reads trace].
    rewrite adc_samples_succ. cbn [fold_left map].
    rewrite <- app_assoc. cbn [app].
    f_equal. f_equal; lia.
Qed.

Lemma getBatteryLevel_run hw m :
  getBatteryLevel hw m
  = (level_of_sum (accumulate (adc_samples hw (adc_reads m) 8)),
     Machine (led_chan m) (led_encoder m) (spi_lcd m) (current_zone m)
       (last_update m) (clock m + 40) (adc_reads m + 8)
       (trace m ++ map (AnalogRead 10) (adc_samples hw (adc_reads m) 8))).
Proof.
  unfold getBatteryLevel, bind. rewrite sample_loop_run.
  unfold ret, accumulate. change (5 * Z.of_nat 8) with 40. reflexivity.
Qed.

(** Without a channel or without an encoder [setLedColor] does nothing. *)
Lemma setLedColor_null r g b m :
  led_chan m = None \/ led_encoder m = None ->
  setLedColor r g b m = (tt, m).
Proof.
  unfold setLedColor. intros [H | H]; rewrite H; [reflexivity |].
  destruct (led_chan m); reflexivity.
Qed.

(** On a ready LED path it sends one frame and changes nothing else. *)
Lemma setLedColor_ready r g b m chan ws :
  led_chan m = Some chan -> led_encoder m = Some ws ->
  enabled chan = true -> (2 <= mem_block_symbols chan)%nat ->
  encoder_idle ws ->
  setLedColor r g b m
  = (tt, Machine (led_chan m) (led_encoder m) (spi_lcd m) (current_zone m)
           (last_update m) (clock m) (adc_reads m)
           (trace m ++ [RmtTransmit [g; r; b] (ws2812_frame ws [g; r; b])])).
Proof.
  intros Hc He Hen Hmem Hidle.
  unfold setLedColor. rewrite Hc, He.
  unfold rmt_transmit. rewrite Hen.
  destruct (rmt_tx_session_frame (S (S (8 * length [g; r; b])))
              (Nat.div (mem_block_symbols chan) 2) ws
              (mem_block_symbols chan) [] [g; r; b] Hidle)
    as (free' & E).
  { apply Nat.div_le_lower_bound; lia. }
  { lia. }
  { lia. }
  rewrite E.
  unfold bind, set_led_encoder, emit, ret.
  cbn [led_chan led_encoder spi_lcd current_zone last_update clock
       adc_reads trace wire app].
  rewrite Hc. reflexivity.
Qed.

Lemma ws2812_idle_is_idle : encoder_idle ws2812_idle.
Proof. repeat split. Qed.

Lemma led_ready_setLedColor r g b m :
  led_ready m -> led_ready (snd (setLedColor r g b m)).
Proof.
  intros (chan & Hc & He & Hen & Hmem).
  rewrite (setLedColor_ready r g b m chan ws2812_idle)
    by (assumption || apply ws2812_idle_is_idle).
  exists chan. cbn [snd led_chan led_encoder]. repeat split; assumption.
Qed.

(** One classify-and-transmit cycle on a ready LED path. *)
Lemma update_led_ready hw m chan ws :
  led_chan m = Some chan -> led_encoder m = Some ws ->
  enabled chan = true -> (2 <= mem_block_symbols chan)%nat ->
  encoder_idle ws ->
  let level := level_of_sum (accumulate (adc_samples hw (adc_reads m) 8)) in
  let zone := next_zone (current_zone m) level in
  let c := zone_color zone in
  update_led hw m
  = (tt, Machine (led_chan m) (led_encoder m) (spi_lcd m) zone
           (last_update m) (clock m + 40) (adc_reads m + 8)
           (trace m ++ map (AnalogRead 10) (adc_samples hw (adc_reads m) 8)
              ++ [RmtTransmit [green c; red c; blue c]
                    (ws2812_frame ws [green c; red c; blue c])])).
Proof.
  intros Hc He Hen Hmem Hidle level zone c.
  unfold update_led, bind. rewrite getBatteryLevel_run.
  rewrite getBatteryColor_run.
  cbn [fst snd set_current_zone led_chan led_encoder spi_lcd current_zone
       last_update clock adc_reads trace].
  fold level. fold zone. fold c.
  rewrite (setLedColor_ready _ _ _ _ chan ws) by assumption.
  cbn [led_chan led_encoder spi_lcd current_zone last_update clock
       adc_reads trace].
  rewrite <- app_assoc. reflexivity.
Qed.

(** ** Observations distribute over concatenation *)

Lemma backlight_writes_app tr1 tr2 :
  backlight_writes (tr1 ++ tr2) = backlight_writes tr1 ++ backlight_writes tr2.
Proof.
  induction tr1 as [| ev tr1 IH]; [reflexivity |].
  destruct ev; cbn; rewrite IH; reflexivity.
Qed.

Lemma led_frames_app tr1 tr2 :
  led_frames (tr1 ++ tr2) = led_frames tr1 ++ led_frames tr2.
Proof.
  induction tr1 as [| ev tr1 IH]; [reflexivity |].
  destruct ev; cbn; rewrite IH; reflexivity.
Qed.

Lemma spi_bytes_app tr1 tr2 :
  spi_bytes (tr1 ++ tr2) = spi_bytes tr1 ++ spi_bytes tr2.
Proof.
  induction tr1 as [| ev tr1 IH]; [reflexivity |].
  destruct ev; cbn; rewrite IH; reflexivity.
Qed.

Lemma gpio_levels_app tr1 tr2 :
  gpio_levels (tr1 ++ tr2) = gpio_levels tr1 ++ gpio_levels tr2.
Proof.
  induction tr1 as [| ev tr1 IH]; [reflexivity |].
  destruct ev; cbn; rewrite IH; reflexivity.
Qed.

Lemma led_frames_analog_reads samples :
  led_frames (map (AnalogRead 10) samples) = [].
Proof. induction samples; [reflexivity | exact IHsamples]. Qed.

Lemma spi_bytes_analog_reads samples :
  spi_bytes (map (AnalogRead 10) samples) = [].
Proof. induction samples; [reflexivity | exact IHsamples]. Qed.

Lemma gpio_levels_analog_reads samples :
  gpio_levels (map (AnalogRead 10) samples) = [].
Proof. induction samples; [reflexivity | exact IHsamples]. Qed.

(** ** Wire order *)

Lemma decode_frame data :
  Forall is_byte data ->
  decode_bytes (length data) (ws2812_frame ws2812_idle data) = data.
Proof.
  intros H. unfold ws2812_frame.
  exact (decode_encode_bytes data H [reset_code ws2812_idle]).
Qed.

(** C10.  On a ready LED path [setLedColor r g b] hands the channel the
    payload [g; r; b]: the one frame it sends carries green first, then
    red, then blue, and its symbols decode to these three bytes in that
    order. *)
Theorem setLedColor_wire_order_grb (m : machine) (r g b : Z) :
  led_ready m ->
  is_byte r -> is_byte g -> is_byte b ->
  exists symbols,
    trace (snd (setLedColor r g b m))
    = trace m ++ [RmtTransmit [g; r; b] symbols]
    /\ led_frames (trace (snd (setLedColor r g b m)))
       = led_frames (trace m) ++ [[g; r; b]]
    /\ decode_bytes 3 symbols = [g; r; b].
Proof.
  intros (chan & Hc & He & Hen & Hmem) Hr Hg Hb.
  rewrite (setLedColor_ready r g b m chan ws2812_idle)
    by (assumption || apply ws2812_idle_is_idle).
  exists (ws2812_frame ws2812_idle [g; r; b]).
  cbn [snd trace].
  split; [reflexivity |]. split.
  - rewrite led_frames_app. reflexivity.
  - apply (decode_frame [g; r; b]).
    apply Forall_cons; [exact Hg |]. apply Forall_cons; [exact Hr |].
    apply Forall_cons; [exact Hb |]. apply Forall_nil.
Qed.

(** ** Footprints: which events a function can append *)

Create HintDb footprint.

Lemma appends_ret {A} P (a : A) : appends P (ret a).
Proof. intros m. exists []. cbn. now rewrite app_nil_r. Qed.

Lemma appends_bind {A B} P (c : M A) (k : A -> M B) :
  appends P c -> (forall a, appends P (k a)) -> appends P (bind c k).
Proof.
  intros Hc Hk m. unfold bind.
  specialize (Hc m). destruct (c m) as [a m']. cbn [snd] in Hc.
  destruct Hc as (e1 & H1 & F1).
  destruct (Hk a m') as (e2 & H2 & F2).
  exists (e1 ++ e2). rewrite H2, H1, app_assoc, forallb_app, F1, F2.
  split; reflexivity.
Qed.

Lemma appends_weaken {A} (P Q : hw_event -> bool) (c : M A) :
  (forall ev, P ev = true -> Q ev = true) -> appends P c -> appends Q c.
Proof.
  intros HPQ Hc m. destruct (Hc m) as (evs & H & F).
  exists evs. split; [exact H |].
  rewrite forallb_forall in *. auto.
Qed.

Lemma appends_emit P ev : P ev = true -> appends P (emit ev).
Proof. intros H m. exists [ev]. cbn. now rewrite H. Qed.

Lemma appends_silent {A} P (c : M A) :
  (forall m, trace (snd (c m)) = trace m) -> appends P c.
Proof. intros H m. exists []. rewrite H, app_nil_r. now split. Qed.

Lemma appends_delay P ms : appends P (delay ms).
Proof. apply appends_silent. reflexivity. Qed.

Lemma appends_millis P : appends P millis.
Proof. apply appends_silent. reflexivity. Qed.

Lemma appends_set_led_chan P c : appends P (set_led_chan c).
Proof. apply appends_silent. reflexivity. Qed.

Lemma appends_set_led_encoder P e : appends P (set_led_encoder e).
Proof. apply appends_silent. reflexivity. Qed.

Lemma appends_set_spi_lcd P d : appends P (set_spi_lcd d).
Proof. apply appends_silent. reflexivity. Qed.

Lemma appends_set_last_update P t : appends P (set_last_update t).
Proof. apply appends_silent. reflexivity. Qed.

Lemma appends_getBatteryColor P level : appends P (getBatteryColor level).
Proof. apply appends_silent. reflexivity. Qed.

#[local] Hint Resolve appends_ret appends_delay appends_millis
  appends_set_led_chan appends_set_led_encoder appends_set_spi_lcd
  appends_set_last_update appends_getBatteryColor : footprint.

(** Breaks a sequence of binds down to its primitive operations. *)
Ltac footprint :=
  repeat (apply appends_bind; [| intros ?]);
  try (apply appends_emit; reflexivity);
  auto with footprint.

Lemma appends_getBatteryLevel hw : appends is_led_path (getBatteryLevel hw).
Proof.
  intros m. rewrite getBatteryLevel_run. cbn [snd trace].
  eexists. split; [reflexivity |].
  apply forallb_forall. intros ev Hin.
  apply in_map_iff in Hin. destruct Hin as (mv & <- & _). reflexivity.
Qed.

Lemma appends_rmt_transmit chan ws data :
  appends is_led_path (rmt_transmit chan ws data).
Proof.
  unfold rmt_transmit.
  destruct (enabled chan); [| apply appends_ret].
  destruct (rmt_tx_session _ _ _ _ _) as [[[n ws'] mem'] |];
    [| apply appends_ret].
  footprint.
Qed.

Lemma appends_setLedColor r g b : appends is_led_path (setLedColor r g b).
Proof.
  intros m. unfold setLedColor.
  destruct (led_chan m) as [chan |]; [| exists []; cbn; now rewrite app_nil_r].
  destruct (led_encoder m) as [ws |]; [| exists []; cbn; now rewrite app_nil_r].
  apply (appends_bind is_led_path (rmt_transmit chan ws [g; r; b])
           (fun _ => ret tt)).
  - apply appends_rmt_transmit.
  - intros _. apply appends_ret.
Qed.

Lemma appends_update_led hw : appends is_led_path (update_led hw).
Proof.
  unfold update_led.
  apply appends_bind; [apply appends_getBatteryLevel | intros level].
  apply appends_bind; [apply appends_getBatteryColor | intros c].
  apply appends_setLedColor.
Qed.

Lemma appends_loop hw : appends is_led_path (loop hw).
Proof.
  unfold loop.
  apply appends_bind; [apply appends_millis | intros now].
  apply appends_bind; [| intros _; apply appends_delay].
  intros m.
  destruct (elapsed now (last_update m) >? BATTERY_UPDATE_MS).
  - apply (appends_bind is_led_path millis); [apply appends_millis |].
    intros now'.
    apply appends_bind; [apply appends_set_last_update | intros _].
    apply appends_update_led.
  - apply appends_ret.
Qed.

Lemma appends_loops hw n : appends is_led_path (loops hw n).
Proof.
  induction n as [| n IH]; cbn [loops]; [apply appends_ret |].
  apply appends_bind; [apply appends_loop | intros _; exact IH].
Qed.

Lemma appends_lcd_cmd cmd : appends is_display_path (lcd_cmd cmd).
Proof.
  intros m. unfold lcd_cmd.
  destruct (spi_lcd m); [| exists []; cbn; now rewrite app_nil_r].
  revert m. footprint.
Qed.

Lemma appends_lcd_data data : appends is_display_path (lcd_data data).
Proof.
  intros m. unfold lcd_data.
  destruct (spi_lcd m); [| exists []; cbn; now rewrite app_nil_r].
  revert m. footprint.
Qed.

#[local] Hint Resolve appends_lcd_cmd appends_lcd_data : footprint.

Lemma appends_lcd_sleep : appends is_display_path lcd_sleep.
Proof. unfold lcd_sleep. footprint. Qed.

Lemma appends_setup_display hw : appends is_display_path (setup_display hw).
Proof.
  unfold setup_display.
  apply appends_bind; [apply appends_emit; reflexivity | intros _].
  apply appends_bind; [apply appends_emit; reflexivity | intros _].
  cbv zeta.
  destruct ((spi_bus_initialize_ret hw =? ESP_OK)
            || (spi_bus_initialize_ret hw =? ESP_ERR_INVALID_STATE));
    [| apply appends_ret].
  destruct (spi_bus_add_device_ret hw =? ESP_OK); [| apply appends_ret].
  apply appends_bind; [apply appends_set_spi_lcd | intros _].
  apply appends_lcd_sleep.
Qed.

Lemma appends_setup_led hw : appends is_led_path (setup_led hw).
Proof.
  unfold setup_led.
  destruct (negb (rmt_new_tx_channel_ret hw =? ESP_OK)); [apply appends_ret |].
  apply appends_bind; [apply appends_set_led_chan | intros _].
  destruct (ws2812_encoder_new _ _ _) as [err enc].
  destruct (negb (err =? ESP_OK)); [apply appends_ret |].
  apply appends_bind; [apply appends_set_led_encoder | intros _].
  destruct (negb (rmt_enable_ret hw =? ESP_OK)); [apply appends_ret |].
  apply appends_bind; [apply appends_set_led_chan | intros _].
  apply appends_bind; [apply appends_delay | intros _].
  apply appends_update_led.
Qed.

(** ** The three steps of [setup] *)

Lemma setup_backlight_run m :
  setup_backlight m
  = (tt, Machine (led_chan m) (led_encoder m) (spi_lcd m) (current_zone m)
           (last_update m) (clock m) (adc_reads m)
           (trace m ++ [LedcTimerConfig 14 1000;
                        LedcChannelConfig LCD_BL_PIN MIN_BACKLIGHT_DUTY])).
Proof.
  unfold setup_backlight, bind, emit. cbn [trace]. rewrite <- app_assoc.
  reflexivity.
Qed.

Lemma lcd_cmd_null cmd m : spi_lcd m = None -> lcd_cmd cmd m = (tt, m).
Proof. unfold lcd_cmd. now intros ->. Qed.

Lemma lcd_data_null data m : spi_lcd m = None -> lcd_data data m = (tt, m).
Proof. unfold lcd_data. now intros ->. Qed.

Lemma lcd_sleep_run m d :
  spi_lcd m = Some d ->
  lcd_sleep m
  = (tt, Machine (led_chan m) (led_encoder m) (spi_lcd m) (current_zone m)
           (last_update m) (clock m + 360) (adc_reads m)
           (trace m ++ lcd_sleep_events)).
Proof.
  destruct m as [lc le sl cz lu ck ar tr]. cbn [spi_lcd]. intros ->.
  unfold lcd_sleep, lcd_cmd, lcd_data, bind, emit, delay.
  cbn [led_chan led_encoder spi_lcd current_zone last_update clock
       adc_reads trace].
  unfold lcd_sleep_events. rewrite <- !app_assoc. cbn [app].
  do 2 f_equal. lia.
Qed.

Lemma setup_display_skipped hw m :
  display_acquired hw = false ->
  setup_display hw m
  = (tt, Machine (led_chan m) (led_encoder m) (spi_lcd m) (current_zone m)
           (last_update m) (clock m) (adc_reads m)
           (trace m ++ [GpioSetDirection LCD_DC; GpioSetDirection LCD_RST])).
Proof.
  unfold display_acquired, setup_display. intros H.
  unfold bind at 1 2. unfold emit at 1 2. cbv zeta.
  cbn [led_chan led_encoder spi_lcd current_zone last_update clock
       adc_reads trace].
  rewrite <- app_assoc. cbn [app].
  destruct ((spi_bus_initialize_ret hw =? ESP_OK)
            || (spi_bus_initialize_ret hw =? ESP_ERR_INVALID_STATE));
    [| reflexivity].
  cbn [andb] in H. rewrite H. reflexivity.
Qed.

Lemma setup_display_acquired hw m :
  display_acquired hw = true ->
  setup_display hw m
  = (tt, Machine (led_chan m) (led_encoder m) (Some 40000000)
           (current_zone m) (last_update m) (clock m + 360) (adc_reads m)
           (trace m ++ [GpioSetDirection LCD_DC; GpioSetDirection LCD_RST]
              ++ lcd_sleep_events)).
Proof.
  unfold display_acquired, setup_display. intros H.
  apply andb_true_iff in H. destruct H as [H1 H2].
  unfold bind at 1 2. unfold emit at 1 2. cbv zeta.
  rewrite H1, H2.
  unfold bind at 1. unfold set_spi_lcd at 1.
  rewrite (lcd_sleep_run _ 40000000) by reflexivity.
  cbn [led_chan led_encoder spi_lcd current_zone last_update clock
       adc_reads trace].
  rewrite <- !app_assoc. reflexivity.
Qed.

Lemma setup_led_initialized hw m :
  led_initialized hw = true ->
  setup_led hw m
  = update_led hw
      (Machine (Some (TxChan 10000000 64 true)) (Some ws2812_idle)
         (spi_lcd m) (current_zone m) (last_update m) (clock m + 50)
         (adc_reads m) (trace m)).
Proof.
  unfold led_initialized. intros H.
  repeat (apply andb_true_iff in H; destruct H as [H ?]).
  unfold setup_led, ws2812_encoder_new.
  repeat match goal with E : _ = true |- _ => rewrite E; clear E end.
  cbn [negb]. change (ESP_OK =? ESP_OK) with true. cbn [negb].
  reflexivity.
Qed.

Lemma setup_led_failed hw m :
  led_initialized hw = false ->
  exists chan enc,
    setup_led hw m
    = (tt, Machine chan enc (spi_lcd m) (current_zone m) (last_update m)
             (clock m) (adc_reads m) (trace m))
    /\ (chan = led_chan m \/ chan = Some (TxChan 10000000 64 false))
    /\ (enc = led_encoder m \/ enc = Some ws2812_idle).
Proof.
  unfold led_initialized, setup_led, ws2812_encoder_new. intros H.
  destruct (rmt_new_tx_channel_ret hw =? ESP_OK); cbn [negb andb] in *.
  2:{ exists (led_chan m), (led_encoder m). destruct m. cbn. auto. }
  destruct (calloc_ok hw); cbn [negb andb] in *.
  2:{ exists (Some (TxChan 10000000 64 false)), (led_encoder m).
      destruct m. cbn. auto. }
  destruct (rmt_new_bytes_encoder_ret hw =? ESP_OK); cbn [negb andb] in *.
  2:{ exists (Some (TxChan 10000000 64 false)), (led_encoder m).
      destruct m. cbn. auto. }
  destruct (rmt_new_copy_encoder_ret hw =? ESP_OK); cbn [negb andb] in *.
  2:{ exists (Some (TxChan 10000000 64 false)), (led_encoder m).
      destruct m. cbn. auto. }
  change (ESP_OK =? ESP_OK) with true. cbn [negb].
  rewrite H. cbn [negb].
  exists (Some (TxChan 10000000 64 false)), (Some ws2812_idle).
  destruct m. cbn. auto.
Qed.

(** ** The backlight *)

Lemma no_backlight_writes evs :
  forallb not_backlight_write evs = true -> backlight_writes evs = [].
Proof.
  induction evs as [| ev evs IH]; [reflexivity |].
  cbn [forallb]. intros H. apply andb_true_iff in H. destruct H as [H1 H2].
  destruct ev; cbn in *; try discriminate; auto.
Qed.

Lemma appends_keeps_backlight {A} (c : M A) :
  appends not_backlight_write c ->
  forall m, backlight_writes (trace (snd (c m))) = backlight_writes (trace m).
Proof.
  intros Hc m. destruct (Hc m) as (evs & -> & F).
  rewrite backlight_writes_app, (no_backlight_writes evs F).
  apply app_nil_r.
Qed.

Lemma led_path_not_backlight {A} (c : M A) :
  appends is_led_path c -> appends not_backlight_write c.
Proof. apply appends_weaken. intros [] H; try discriminate; reflexivity. Qed.

Lemma display_path_not_backlight {A} (c : M A) :
  appends is_display_path c -> appends not_backlight_write c.
Proof. apply appends_weaken. intros [] H; try discriminate; reflexivity. Qed.

Lemma backlight_duty_single d tr :
  backlight_writes tr = [d] -> backlight_duty tr = Some d.
Proof. unfold backlight_duty. now intros ->. Qed.

(** C3.  Whatever the platform answers and however long the program has
    run, the trace holds exactly one write of the backlight duty, the one
    [setup] makes with [MIN_BACKLIGHT_DUTY] = 5000 on the 14-bit timer
    (30 percent of full scale), so the duty held is the minimum; and none
    of [lcd_sleep], [getBatteryLevel], [getBatteryColor], [setLedColor],
    [loop] writes it, in any state. *)
Theorem backlight_written_once (hw : platform) (n : nat) :
  backlight_writes (trace (run hw n)) = [MIN_BACKLIGHT_DUTY]
  /\ backlight_writes (trace (snd (setup hw boot))) = [MIN_BACKLIGHT_DUTY]
  /\ (exists duty, backlight_duty (trace (run hw n)) = Some duty
                   /\ duty >= MIN_BACKLIGHT_DUTY)
  /\ In (LedcTimerConfig 14 1000) (trace (run hw n))
  /\ MIN_BACKLIGHT_DUTY = 5000
  /\ 100 * MIN_BACKLIGHT_DUTY / 2 ^ 14 = 30
  /\ (forall (m : machine) (level r g b : Z),
        backlight_writes (trace (snd (lcd_sleep m)))
        = backlight_writes (trace m)
        /\ backlight_writes (trace (snd (getBatteryLevel hw m)))
           = backlight_writes (trace m)
        /\ backlight_writes (trace (snd (getBatteryColor level m)))
           = backlight_writes (trace m)
        /\ backlight_writes (trace (snd (setLedColor r g b m)))
           = backlight_writes (trace m)
        /\ backlight_writes (trace (snd (loop hw m)))
           = backlight_writes (trace m)).
Proof.
  assert (Hsetup : forall m,
             backlight_writes (trace (snd (setup hw m)))
             = backlight_writes (trace m) ++ [MIN_BACKLIGHT_DUTY]).
  { intros m. unfold setup, bind. rewrite setup_backlight_run.
    destruct (setup_display hw _) as [u1 m1] eqn:E1.
    pose proof (appends_keeps_backlight _
                  (led_path_not_backlight _ (appends_setup_led hw)) m1) as H2.
    pose proof (appends_keeps_backlight _
                  (display_path_not_backlight _ (appends_setup_display hw)))
      as H1.
    rewrite H2. replace m1 with (snd (setup_display hw
      (Machine (led_chan m) (led_encoder m) (spi_lcd m) (current_zone m)
         (last_update m) (clock m) (adc_reads m)
         (trace m ++ [LedcTimerConfig 14 1000;
                      LedcChannelConfig LCD_BL_PIN MIN_BACKLIGHT_DUTY]))))
      by (rewrite E1; reflexivity).
    rewrite H1. cbn [trace]. rewrite backlight_writes_app. reflexivity. }
  assert (Hrun : backlight_writes (trace (run hw n)) = [MIN_BACKLIGHT_DUTY]).
  { unfold run, bind.
    destruct (setup hw boot) as [u m0] eqn:E0.
    rewrite (appends_keeps_backlight _
               (led_path_not_backlight _ (appends_loops hw n)) m0).
    replace m0 with (snd (setup hw boot)) by (rewrite E0; reflexivity).
    rewrite Hsetup. reflexivity. }
  split; [exact Hrun |].
  split; [rewrite Hsetup; reflexivity |].
  split.
  { exists MIN_BACKLIGHT_DUTY. split; [| lia].
    apply backlight_duty_single. exact Hrun. }
  split.
  { unfold run, setup, bind.
    rewrite setup_backlight_run. cbn [trace boot app].
    destruct (setup_display hw _) as [u1 m1] eqn:E1.
    destruct (setup_led hw m1) as [u2 m2] eqn:E2.
    destruct (appends_setup_display hw
                (Machine (led_chan boot) (led_encoder boot) (spi_lcd boot)
                   (current_zone boot) (last_update boot) (clock boot)
                   (adc_reads boot)
                   [LedcTimerConfig 14 1000;
                    LedcChannelConfig LCD_BL_PIN MIN_BACKLIGHT_DUTY]))
      as (e1 & H1 & _).
    rewrite E1 in H1. cbn [snd trace] in H1.
    destruct (appends_setup_led hw m1) as (e2 & H2 & _).
    rewrite E2 in H2. cbn [snd] in H2.
    destruct (appends_loops hw n m2) as (e3 & H3 & _).
    rewrite H3, H2, H1. cbn [app]. left. reflexivity. }
  split; [reflexivity |]. split; [reflexivity |].
  intros m level r g b.
  split; [apply appends_keeps_backlight, display_path_not_backlight,
            appends_lcd_sleep |].
  split; [apply appends_keeps_backlight, led_path_not_backlight,
            appends_getBatteryLevel |].
  split; [reflexivity |].
  split; [apply appends_keeps_backlight, led_path_not_backlight,
            appends_setLedColor |].
  apply appends_keeps_backlight, led_path_not_backlight, appends_loop.
Qed.

(** ** Startup *)

Lemma bind_run {A B} (c : M A) (k : A -> M B) m :
  bind c k m = k (fst (c m)) (snd (c m)).
Proof. unfold bind. destruct (c m). reflexivity. Qed.

Lemma setup_steps hw m :
  setup hw m = setup_led hw (snd (setup_display hw (snd (setup_backlight m)))).
Proof. unfold setup. rewrite !bind_run. reflexivity. Qed.

(** [setup] from reset when the LED initialisation succeeds: whatever
    happened to the display, it ends with one classify-and-transmit
    cycle. *)
Lemma setup_led_cycle hw :
  led_initialized hw = true ->
  exists m1,
    snd (setup_display hw (snd (setup_backlight boot))) = m1
    /\ led_chan m1 = None /\ led_encoder m1 = None
    /\ current_zone m1 = -1 /\ adc_reads m1 = O
    /\ led_frames (trace m1) = []
    /\ snd (setup hw boot)
       = snd (update_led hw
                (Machine (Some (TxChan 10000000 64 true)) (Some ws2812_idle)
                   (spi_lcd m1) (current_zone m1) (last_update m1)
                   (clock m1 + 50) (adc_reads m1) (trace m1))).
Proof.
  intros Hled. eexists. split; [reflexivity |].
  rewrite setup_backlight_run. cbn [snd].
  destruct (display_acquired hw) eqn:Hd.
  - rewrite setup_display_acquired by exact Hd.
    cbn [snd led_chan led_encoder current_zone adc_reads trace boot app].
    repeat (split; [reflexivity |]).
    unfold setup, bind. rewrite setup_backlight_run.
    rewrite setup_display_acquired by exact Hd.
    rewrite setup_led_initialized by exact Hled. reflexivity.
  - rewrite setup_display_skipped by exact Hd.
    cbn [snd led_chan led_encoder current_zone adc_reads trace boot app].
    repeat (split; [reflexivity |]).
    unfold setup, bind. rewrite setup_backlight_run.
    rewrite setup_display_skipped by exact Hd.
    rewrite setup_led_initialized by exact Hled. reflexivity.
Qed.

(** C8.  Failures of initialisation degrade to no-ops.  With a NULL
    channel or a NULL encoder [setLedColor] returns with the machine
    untouched; without a display device [lcd_cmd] and [lcd_data] do
    nothing; and when the display cannot be acquired, [setup] sends
    nothing to the display, drives none of its lines, leaves [spi_lcd]
    NULL, and, the LED path initialising, goes on to classify the battery
    level once and to send exactly one LED frame. *)
Theorem init_failures_degrade (hw : platform) (m : machine) (r g b byte : Z) :
  (led_chan m = None \/ led_encoder m = None -> setLedColor r g b m = (tt, m))
  /\ (spi_lcd m = None ->
      lcd_cmd byte m = (tt, m) /\ lcd_data byte m = (tt, m))
  /\ (display_acquired hw = false ->
      let m' := snd (setup hw boot) in
      spi_lcd m' = None
      /\ spi_bytes (trace m') = []
      /\ gpio_levels (trace m') = []
      /\ (led_initialized hw = true ->
          led_ready m'
          /\ adc_reads m' = 8%nat
          /\ 0 <= current_zone m' <= 3
          /\ exists c,
               c = zone_color (current_zone m')
               /\ led_frames (trace m') = [[green c; red c; blue c]])).
Proof.
  split; [apply setLedColor_null |].
  split; [intros H; split; [apply lcd_cmd_null | apply lcd_data_null];
          exact H |].
  intros Hd m'.
  assert (Hpre : snd (setup_display hw (snd (setup_backlight boot)))
                 = Machine None None None (-1) 0 0 O
                     [LedcTimerConfig 14 1000;
                      LedcChannelConfig LCD_BL_PIN MIN_BACKLIGHT_DUTY;
                      GpioSetDirection LCD_DC; GpioSetDirection LCD_RST]).
  { rewrite setup_backlight_run. cbn [snd].
    rewrite setup_display_skipped by exact Hd. reflexivity. }
  destruct (led_initialized hw) eqn:Hled.
  - destruct (setup_led_cycle hw Hled) as (m1 & E1 & _ & _ & _ & _ & _ & Hs).
    rewrite Hpre in E1. subst m1.
    cbn [spi_lcd current_zone last_update clock adc_reads trace] in Hs.
    rewrite (update_led_ready hw _ (TxChan 10000000 64 true) ws2812_idle)
      in Hs; try reflexivity; try (cbn; lia); try apply ws2812_idle_is_idle.
    cbn [snd led_chan led_encoder spi_lcd current_zone last_update clock
         adc_reads trace] in Hs.
    subst m'. rewrite Hs.
    cbn [spi_lcd trace adc_reads current_zone].
    split; [reflexivity |].
    rewrite !spi_bytes_app, !gpio_levels_app, spi_bytes_analog_reads,
      gpio_levels_analog_reads.
    split; [reflexivity |]. split; [reflexivity |].
    intros _.
    split.
    { exists (TxChan 10000000 64 true). cbn. repeat split; lia. }
    split; [reflexivity |].
    split; [apply next_zone_range; lia |].
    eexists. split; [reflexivity |].
    rewrite !led_frames_app, led_frames_analog_reads. reflexivity.
  - destruct (setup_led_failed hw
                (snd (setup_display hw (snd (setup_backlight boot)))) Hled)
      as (chan & enc & Hs & _ & _).
    assert (Hm' : m' = snd (setup_led hw
                (snd (setup_display hw (snd (setup_backlight boot))))))
      by (subst m'; rewrite setup_steps; reflexivity).
    rewrite Hs, Hpre in Hm'. cbn [snd spi_lcd trace] in Hm'.
    rewrite Hm'. cbn [spi_lcd trace].
    split; [reflexivity |]. split; [reflexivity |]. split; [reflexivity |].
    discriminate.
Qed.

Lemma init_failures_degrade_witness :
  setLedColor 255 128 0 boot = (tt, boot)
  /\ lcd_cmd 17 boot = (tt, boot)
  /\ exists c,
       led_frames
         (trace (snd (setup (Platform (fun _ => 1800) ESP_FAIL ESP_OK ESP_OK
                               true ESP_OK ESP_OK ESP_OK) boot)))
       = [[green c; red c; blue c]].
Proof.
  destruct (init_failures_degrade
              (Platform (fun _ => 1800) ESP_FAIL ESP_OK ESP_OK true ESP_OK
                 ESP_OK ESP_OK) boot 255 128 0 17) as (H1 & H2 & H3).
  split; [apply H1; left; reflexivity |].
  split; [apply H2; reflexivity |].
  destruct (H3 eq_refl) as (_ & _ & _ & H4).
  destruct (H4 eq_refl) as (_ & _ & _ & c & _ & Hc).
  exists c. exact Hc.
Defined.

Lemma setLedColor_wire_order_grb_witness :
  exists symbols,
    trace (snd (setLedColor 255 128 0
                  (Machine (Some (TxChan 10000000 64 true)) (Some ws2812_idle)
                     None 1 0 0 O [])))
    = [RmtTransmit [128; 255; 0] symbols].
Proof.
  destruct (setLedColor_wire_order_grb
              (Machine (Some (TxChan 10000000 64 true)) (Some ws2812_idle)
                 None 1 0 0 O []) 255 128 0) as (symbols & H & _).
  - exists (TxChan 10000000 64 true). cbn. repeat split. lia.
  - unfold is_byte. lia.
  - unfold is_byte. lia.
  - unfold is_byte. lia.
  - exists symbols. exact H.
Defined.

(** ** Pulse timing *)

(** Before the LED step of [setup] nothing of the LED path is set. *)
Lemma setup_before_led hw :
  let m1 := snd (setup_display hw (snd (setup_backlight boot))) in
  led_chan m1 = None /\ led_encoder m1 = None.
Proof.
  cbv zeta. rewrite setup_backlight_run. cbn [snd].
  destruct (display_acquired hw) eqn:Hd.
  - rewrite setup_display_acquired by exact Hd. split; reflexivity.
  - rewrite setup_display_skipped by exact Hd. split; reflexivity.
Qed.




(** ** The scheduler *)

(** What [setLedColor] can touch: the encoder and the trace. *)
Lemma setLedColor_frame r g b m :
  let m' := snd (setLedColor r g b m) in
  led_chan m' = led_chan m /\ spi_lcd m' = spi_lcd m
  /\ current_zone m' = current_zone m /\ last_update m' = last_update m
  /\ clock m' = clock m /\ adc_reads m' = adc_reads m.
Proof.
  cbv zeta. unfold setLedColor.
  destruct m as [lc le sl cz lu ck ar tr].
  cbn [led_chan led_encoder].
  destruct lc as [chan |]; [| cbn; auto 10].
  destruct le as [ws |]; [| cbn; auto 10].
  unfold rmt_transmit, bind.
  destruct (enabled chan); [| cbn; auto 10].
  destruct (rmt_tx_session _ _ _ _ _) as [[[n ws'] mem'] |];
    cbn; auto 10.
Qed.

Lemma update_led_frame hw m :
  let m' := snd (update_led hw m) in
  led_chan m' = led_chan m /\ spi_lcd m' = spi_lcd m
  /\ last_update m' = last_update m
  /\ clock m' = clock m + 40 /\ adc_reads m' = (adc_reads m + 8)%nat
  /\ current_zone m'
     = next_zone (current_zone m)
         (level_of_sum (accumulate (adc_samples hw (adc_reads m) 8))).
Proof.
  cbv zeta. unfold update_led. rewrite !bind_run.
  rewrite getBatteryLevel_run, getBatteryColor_run. cbn [fst snd].
  match goal with
  | |- context [setLedColor ?r ?g ?b ?m0] =>
      destruct (setLedColor_frame r g b m0) as (H1 & H2 & H3 & H4 & H5 & H6)
  end.
  rewrite H1, H2, H3, H4, H5, H6. cbn. repeat split; reflexivity.
Qed.

Lemma loop_idle hw m :
  elapsed (clock m mod 2 ^ 32) (last_update m) <= BATTERY_UPDATE_MS ->
  loop hw m = (tt, snd (delay 100 m)).
Proof.
  intros H. unfold loop. rewrite !bind_run.
  change (snd (millis m)) with m.
  change (fst (millis m)) with (clock m mod 2 ^ 32).
  destruct (Z.gtb_spec (elapsed (clock m mod 2 ^ 32) (last_update m))
              BATTERY_UPDATE_MS) as [Hgt | Hle]; [lia |].
  reflexivity.
Qed.

Lemma loop_update hw m :
  elapsed (clock m mod 2 ^ 32) (last_update m) > BATTERY_UPDATE_MS ->
  loop hw m
  = delay 100
      (snd (update_led hw (snd (set_last_update (clock m mod 2 ^ 32) m)))).
Proof.
  intros H. unfold loop. rewrite !bind_run.
  change (snd (millis m)) with m.
  change (fst (millis m)) with (clock m mod 2 ^ 32).
  destruct (Z.gtb_spec (elapsed (clock m mod 2 ^ 32) (last_update m))
              BATTERY_UPDATE_MS) as [Hgt | Hle]; [| lia].
  rewrite !bind_run. reflexivity.
Qed.

(** Elapsed time on the wrapping clock: [d] milliseconds after the counter
    was set, [d] has elapsed. *)
Lemma elapsed_after c d :
  0 <= d < 2 ^ 32 -> elapsed ((c + d) mod 2 ^ 32) (c mod 2 ^ 32) = d.
Proof.
  intros Hd. unfold elapsed.
  rewrite <- Zminus_mod. replace (c + d - c) with d by lia.
  apply Z.mod_small. exact Hd.
Qed.


(** ** The program from reset *)

(** The state [setup] leaves: it never touches [last_update], and its
    delays add up to 360 ms for the display and 90 ms for the LED. *)
Lemma setup_state hw :
  let s := snd (setup hw boot) in
  last_update s = 0
  /\ clock s = (if display_acquired hw then 360 else 0)
               + (if led_initialized hw then 90 else 0)
  /\ (led_initialized hw = true ->
      led_ready s /\ adc_reads s = 8%nat
      /\ exists c, led_frames (trace s) = [[green c; red c; blue c]])
  /\ (led_initialized hw = false ->
      adc_reads s = O /\ led_frames (trace s) = []).
Proof.
  cbv zeta. rewrite setup_steps, setup_backlight_run. cbn [snd].
  assert (Hd : exists d evs,
             snd (setup_display hw
                    (Machine (led_chan boot) (led_encoder boot) (spi_lcd boot)
                       (current_zone boot) (last_update boot) (clock boot)
                       (adc_reads boot)
                       (trace boot
                        ++ [LedcTimerConfig 14 1000;
                            LedcChannelConfig LCD_BL_PIN MIN_BACKLIGHT_DUTY])))
             = Machine None None d (-1) 0
                 (if display_acquired hw then 360 else 0) O evs
             /\ led_frames evs = []).
  { destruct (display_acquired hw) eqn:E.
    - rewrite setup_display_acquired by exact E.
      eexists. eexists. split; reflexivity.
    - rewrite setup_display_skipped by exact E.
      eexists. eexists. split; reflexivity. }
  destruct Hd as (d & evs & -> & Hevs).
  destruct (led_initialized hw) eqn:Hled.
  - rewrite setup_led_initialized by exact Hled.
    rewrite (update_led_ready hw _ (TxChan 10000000 64 true) ws2812_idle);
      try reflexivity; try (cbn; lia); try apply ws2812_idle_is_idle.
    cbn [snd led_chan led_encoder spi_lcd current_zone last_update clock
         adc_reads trace].
    split; [reflexivity |]. split; [lia |].
    split; [| discriminate].
    intros _. split.
    { exists (TxChan 10000000 64 true). cbn. repeat split. lia. }
    split; [reflexivity |].
    eexists.
    rewrite !led_frames_app, led_frames_analog_reads, Hevs. reflexivity.
  - destruct (setup_led_failed hw
                (Machine None None d (-1) 0
                   (if display_acquired hw then 360 else 0) O evs) Hled)
      as (chan & enc & Hs & _).
    rewrite Hs.
    cbn [snd last_update clock adc_reads trace].
    split; [reflexivity |]. split; [lia |].
    split; [discriminate |].
    intros _. split; [reflexivity | exact Hevs].
Qed.

Lemma loops_snoc hw n :
  forall m, snd (loops hw (S n) m) = snd (loop hw (snd (loops hw n m))).
Proof.
  induction n as [| n IH]; intros m.
  - cbn [loops]. rewrite bind_run. reflexivity.
  - change (loops hw (S (S n))) with (bind (loop hw) (fun _ => loops hw (S n))).
    rewrite bind_run. rewrite IH.
    cbn [loops]. rewrite bind_run. reflexivity.
Qed.

Lemma run_loops hw n : run hw n = snd (loops hw n (snd (setup hw boot))).
Proof. unfold run. rewrite bind_run. reflexivity. Qed.

Lemma run_succ hw n : run hw (S n) = snd (loop hw (run hw n)).
Proof. rewrite !run_loops. apply loops_snoc. Qed.






End FirmwareFacts.

(* ===================================================================== *)
(** * Properties of the battery level *)
(* ===================================================================== *)

Module LevelFacts.
Import Battery Rmt Firmware EncoderFacts FirmwareFacts.

(** ** The order of voltages *)

Lemma float_key_compare f1 f2 :
  key_domain f1 = true -> key_domain f2 = true ->
  SFcompare f1 f2 = Some (float_key f1 ?= float_key f2).
Proof.
  destruct f1 as [s1 | s1 | | [|] m1 e1]; try discriminate;
    destruct f2 as [s2 | s2 | | [|] m2 e2]; try discriminate;
    cbn [key_domain SFcompare float_key]; intros H1 H2;
    try apply andb_true_iff in H1; try apply andb_true_iff in H2.
  - reflexivity.
  - destruct H2 as [H2 H2']. apply Z.ltb_lt in H2. apply Z.leb_le in H2'.
    f_equal. symmetry. apply Z.compare_lt_iff.
    change (2 ^ 40) with 1099511627776. change (2 ^ 24) with 16777216 in *.
    lia.
  - destruct H1 as [H1 H1']. apply Z.ltb_lt in H1. apply Z.leb_le in H1'.
    f_equal. symmetry. apply Z.compare_gt_iff.
    change (2 ^ 40) with 1099511627776. change (2 ^ 24) with 16777216 in *.
    lia.
  - destruct H1 as [H1 _]. destruct H2 as [H2 _].
    apply Z.ltb_lt in H1. apply Z.ltb_lt in H2.
    change (2 ^ 24) with 16777216 in *.
    f_equal.
    destruct (Z.compare_spec e1 e2) as [-> | Hlt | Hgt].
    + rewrite Z.add_compare_mono_l. reflexivity.
    + symmetry. apply Z.compare_lt_iff. lia.
    + symmetry. apply Z.compare_gt_iff. lia.
Qed.

Lemma SFleb_key f1 f2 :
  key_domain f1 = true -> key_domain f2 = true ->
  SFleb f1 f2 = true -> float_key f1 <= float_key f2.
Proof.
  intros H1 H2. unfold SFleb. rewrite (float_key_compare f1 f2 H1 H2).
  destruct (Z.compare_spec (float_key f1) (float_key f2)); try discriminate;
    intros _; lia.
Qed.

(** ** Every averaged reading up to 65535 mV, by evaluation *)

Lemma level_check_all :
  forall_from (Z.to_nat 65536) 0 level_check = true.
Proof. vm_cast_no_check (eq_refl true). Qed.

Lemma level_check_at avg :
  0 <= avg <= 65535 ->
  let v := voltage_of_avg avg in
  let l := level_of_voltage v in
  key_domain v = true
  /\ float_key v < float_key (voltage_of_avg (avg + 1))
  /\ l <= level_of_voltage (voltage_of_avg (avg + 1))
  /\ 0 <= l <= 100
  /\ (SFleb v BATTERY_MIN_V = true -> l = 0)
  /\ (SFleb BATTERY_MAX_V v = true -> l = 100).
Proof.
  intros Ha.
  pose proof (forall_from_spec _ _ _ level_check_all avg) as H.
  rewrite Z2Nat.id in H by lia. specialize (H ltac:(lia)).
  unfold level_check in H. cbv zeta in *.
  repeat (apply andb_true_iff in H; destruct H as [H ?]).
  repeat match goal with
         | E : (_ <? _) = true |- _ => apply Z.ltb_lt in E
         | E : (_ <=? _) = true |- _ => apply Z.leb_le in E
         end.
  repeat split; try assumption.
  - intros E.
    match goal with
    | I : implb (SFleb _ BATTERY_MIN_V) _ = true |- _ =>
        rewrite E in I; cbn [implb] in I; apply Z.eqb_eq in I; exact I
    end.
  - intros E.
    match goal with
    | I : implb (SFleb BATTERY_MAX_V _) _ = true |- _ =>
        rewrite E in I; cbn [implb] in I; apply Z.eqb_eq in I; exact I
    end.
Qed.

(** Voltage and level grow with the averaged reading. *)
Lemma level_chain (n : nat) :
  forall a, 0 <= a -> a + Z.of_nat n <= 65536 ->
    float_key (voltage_of_avg a)
    <= float_key (voltage_of_avg (a + Z.of_nat n)) - Z.of_nat n
    /\ level_of_voltage (voltage_of_avg a)
       <= level_of_voltage (voltage_of_avg (a + Z.of_nat n)).
Proof.
  induction n as [| n IH]; intros a Ha Hb.
  - cbn [Z.of_nat]. rewrite Z.add_0_r. lia.
  - rewrite Nat2Z.inj_succ in *.
    destruct (level_check_at a ltac:(lia)) as (_ & Hk & Hl & _).
    destruct (IH (a + 1) ltac:(lia) ltac:(lia)) as [IHk IHl].
    replace (a + Z.succ (Z.of_nat n)) with (a + 1 + Z.of_nat n) by lia.
    lia.
Qed.

Lemma level_monotone a b :
  0 <= a <= b -> b <= 65535 ->
  level_of_voltage (voltage_of_avg a) <= level_of_voltage (voltage_of_avg b).
Proof.
  intros Ha Hb.
  destruct (level_chain (Z.to_nat (b - a)) a ltac:(lia)
              ltac:(rewrite Z2Nat.id; lia)) as [_ H].
  rewrite Z2Nat.id in H by lia.
  replace (a + (b - a)) with b in H by lia. exact H.
Qed.

Lemma voltage_strictly_monotone a b :
  0 <= a < b -> b <= 65535 ->
  float_key (voltage_of_avg a) < float_key (voltage_of_avg b).
Proof.
  intros Ha Hb.
  destruct (level_chain (Z.to_nat (b - a)) a ltac:(lia)
              ltac:(rewrite Z2Nat.id; lia)) as [H _].
  rewrite Z2Nat.id in H by lia.
  replace (a + (b - a)) with b in H by lia. lia.
Qed.

(** The constant 4.2f is the binary32 number nearest to 42/10. *)
Lemma battery_max_v_is_4_2f :
  BATTERY_MAX_V = fdiv (float_of_int 42) (float_of_int 10).
Proof. vm_compute. reflexivity. Qed.

(** In millivolts at the battery, twice the averaged reading: at most
    3000 mV gives level 0, at least 4200 mV gives level 100. *)
Lemma level_of_millivolts avg :
  0 <= avg <= 65535 ->
  (2 * avg <= 3000 -> level_of_voltage (voltage_of_avg avg) = 0)
  /\ (2 * avg >= 4200 -> level_of_voltage (voltage_of_avg avg) = 100).
Proof.
  intros Ha.
  destruct (level_check_at avg Ha) as (_ & _ & _ & Hr & _).
  split; intros H.
  - pose proof (level_monotone avg 1500 ltac:(lia) ltac:(lia)) as Hm.
    assert (E : level_of_voltage (voltage_of_avg 1500) = 0)
      by (vm_compute; reflexivity).
    lia.
  - pose proof (level_monotone 2100 avg ltac:(lia) ltac:(lia)) as Hm.
    assert (E : level_of_voltage (voltage_of_avg 2100) = 100)
      by (vm_compute; reflexivity).
    lia.
Qed.

(** ** The accumulated sum does not wrap *)

Lemma wrap_long_small z : - 2 ^ 31 <= z < 2 ^ 31 -> wrap_long z = z.
Proof.
  intros H. unfold wrap_long.
  rewrite Z.mod_small; change (2 ^ 31) with 2147483648 in *;
    change (2 ^ 32) with 4294967296; lia.
Qed.

Lemma fold_sum_bounds samples :
  forall acc,
    Forall (fun mv => 0 <= mv <= 65535) samples ->
    0 <= acc -> acc + 65535 * Z.of_nat (length samples) < 2 ^ 31 ->
    acc <= fold_left (fun s mv => wrap_long (s + mv)) samples acc
        <= acc + 65535 * Z.of_nat (length samples).
Proof.
  induction samples as [| mv samples IH]; intros acc Hall Hacc Hmax.
  - cbn. lia.
  - inversion Hall as [| ? ? Hmv Hrest]; subst.
    cbn [fold_left length] in *. rewrite Nat2Z.inj_succ in *.
    change (2 ^ 31) with 2147483648 in *.
    rewrite wrap_long_small
      by (change (2 ^ 31) with 2147483648; lia).
    specialize (IH (acc + mv) Hrest ltac:(lia)
                  ltac:(change (2 ^ 31) with 2147483648; lia)).
    lia.
Qed.

(** The average of eight in-range readings is an in-range reading. *)
Lemma average_in_range hw m :
  readings_in_range hw m ->
  0 <= Z.quot (accumulate (adc_samples hw (adc_reads m) 8)) 8 <= 65535.
Proof.
  intros H. unfold readings_in_range in H.
  assert (Hs : 0 <= accumulate (adc_samples hw (adc_reads m) 8) <= 524280).
  { unfold accumulate.
    pose proof (fold_sum_bounds (adc_samples hw (adc_reads m) 8) 0 H) as Hs.
    rewrite adc_samples_length in Hs.
    change (0 + 65535 * Z.of_nat 8) with 524280 in Hs.
    apply Hs; [lia | reflexivity]. }
  generalize dependent (accumulate (adc_samples hw (adc_reads m) 8)).
  intros sum Hs.
  rewrite Z.quot_div_nonneg by lia.
  split.
  - apply Z.div_pos; lia.
  - apply Z.div_le_upper_bound; lia.
Qed.

Lemma measured_voltage_run hw m :
  measured_voltage hw m
  = voltage_of_avg (Z.quot (accumulate (adc_samples hw (adc_reads m) 8)) 8).
Proof.
  unfold measured_voltage, voltage_of_sum, accumulate.
  rewrite sample_loop_run. cbn [fst]. reflexivity.
Qed.

Lemma getBatteryLevel_value hw m :
  fst (getBatteryLevel hw m) = level_of_voltage (measured_voltage hw m).
Proof.
  rewrite getBatteryLevel_run, measured_voltage_run. cbn [fst].
  unfold level_of_sum, voltage_of_sum. reflexivity.
Qed.

(** C6.  For readings of at most 65535 mV: the level returned by
    [getBatteryLevel] lies in 0..100; it is 0 when the measured voltage is
    at most 3.0 V and 100 when it is at least 4.2 V (the [float] constants
    of the sketch); and of two measurements, the one with the higher
    voltage never gets the lower level. *)
Theorem getBatteryLevel_clamped_monotone (hw1 hw2 : platform)
    (m1 m2 : machine) :
  readings_in_range hw1 m1 ->
  readings_in_range hw2 m2 ->
  let V1 := measured_voltage hw1 m1 in
  let V2 := measured_voltage hw2 m2 in
  let L1 := fst (getBatteryLevel hw1 m1) in
  let L2 := fst (getBatteryLevel hw2 m2) in
  0 <= L1 <= 100
  /\ (SFleb V1 BATTERY_MIN_V = true -> L1 = 0)
  /\ (SFleb BATTERY_MAX_V V1 = true -> L1 = 100)
  /\ (SFleb V1 V2 = true -> L1 <= L2).
Proof.
  intros H1 H2. cbv zeta.
  rewrite !getBatteryLevel_value, !measured_voltage_run.
  pose proof (average_in_range hw1 m1 H1) as Ha.
  pose proof (average_in_range hw2 m2 H2) as Hb.
  set (a := Z.quot (accumulate (adc_samples hw1 (adc_reads m1) 8)) 8) in *.
  set (b := Z.quot (accumulate (adc_samples hw2 (adc_reads m2) 8)) 8) in *.
  destruct (level_check_at a Ha) as (Da & _ & _ & Hr & Hmin & Hmax).
  destruct (level_check_at b Hb) as (Db & _).
  split; [exact Hr |]. split; [exact Hmin |]. split; [exact Hmax |].
  intros Hle.
  pose proof (SFleb_key _ _ Da Db Hle) as Hk.
  destruct (Z_le_gt_dec a b) as [Hab | Hab].
  - apply level_monotone; lia.
  - pose proof (voltage_strictly_monotone b a ltac:(lia) ltac:(lia)). lia.
Qed.

Lemma getBatteryLevel_clamped_monotone_witness :
  fst (getBatteryLevel (Platform (fun _ => 1450) ESP_OK ESP_OK ESP_OK true
                          ESP_OK ESP_OK ESP_OK) boot) = 0
  /\ fst (getBatteryLevel (Platform (fun _ => 2150) ESP_OK ESP_OK ESP_OK true
                             ESP_OK ESP_OK ESP_OK) boot) = 100.
Proof.
  assert (R1 : readings_in_range
                 (Platform (fun _ => 1450) ESP_OK ESP_OK ESP_OK true ESP_OK
                    ESP_OK ESP_OK) boot)
    by (unfold readings_in_range; cbn; repeat (apply Forall_cons; [lia |]);
        apply Forall_nil).
  assert (R2 : readings_in_range
                 (Platform (fun _ => 2150) ESP_OK ESP_OK ESP_OK true ESP_OK
                    ESP_OK ESP_OK) boot)
    by (unfold readings_in_range; cbn; repeat (apply Forall_cons; [lia |]);
        apply Forall_nil).
  split.
  - destruct (getBatteryLevel_clamped_monotone _ _ _ _ R1 R2)
      as (_ & H & _).
    apply H. vm_compute. reflexivity.
  - destruct (getBatteryLevel_clamped_monotone _ _ _ _ R2 R1)
      as (_ & _ & H & _).
    apply H. vm_compute. reflexivity.
Defined.

End LevelFacts.

(* ===================================================================== *)
(** * Further properties of the sketch *)
(* ===================================================================== *)

Module MoreFacts.
Import Battery Rmt Firmware ClassifierFacts EncoderFacts FirmwareFacts
  LevelFacts.
Local Open Scope fw_scope.

(** ** The encoder *)

Lemma wrote_refl mem : wrote mem mem O.
Proof.
  unfold wrote. split; [lia |]. split; [lia |].
  exists []. now rewrite app_nil_r.
Qed.

Lemma wrote_trans mem1 mem2 mem3 n1 n2 :
  wrote mem1 mem2 n1 -> wrote mem2 mem3 n2 -> wrote mem1 mem3 (n1 + n2).
Proof.
  unfold wrote. intros (H1 & H2 & new1 & H3 & H4) (K1 & K2 & new2 & K3 & K4).
  split; [lia |]. split; [lia |].
  exists (new1 ++ new2). rewrite K3, H3, <- app_assoc, length_app.
  split; [reflexivity | lia].
Qed.

Lemma rmt_bytes_encode_wrote enc mem data :
  wrote mem (snd (rmt_bytes_encode enc mem data))
    (fst (fst (fst (rmt_bytes_encode enc mem data)))).
Proof.
  unfold rmt_bytes_encode, wrote. cbn [fst snd mem_free wire].
  split; [lia |]. split; [reflexivity |].
  eexists. split; [reflexivity |]. apply encode_bits_length.
Qed.

Lemma rmt_copy_encode_wrote enc mem symbols :
  wrote mem (snd (rmt_copy_encode enc mem symbols))
    (fst (fst (fst (rmt_copy_encode enc mem symbols)))).
Proof.
  unfold rmt_copy_encode, wrote. cbn [fst snd mem_free wire].
  split; [lia |]. split; [reflexivity |].
  eexists. split; [reflexivity |].
  rewrite length_firstn, length_skipn. lia.
Qed.

Lemma ws2812_encode_reset_wrote ws mem encoded st :
  exists n,
    fst (fst (fst (ws2812_encode_reset ws mem encoded st)))
    = (encoded + n)%nat
    /\ wrote mem (snd (ws2812_encode_reset ws mem encoded st)) n.
Proof.
  unfold ws2812_encode_reset.
  pose proof (rmt_copy_encode_wrote (copy_encoder ws) mem [reset_code ws])
    as H.
  destruct (rmt_copy_encode _ _ _) as [[[n ss] ce] mem'].
  cbn [fst snd] in H. exists n.
  destruct (has_flag ss RMT_ENCODING_COMPLETE);
    destruct (has_flag ss RMT_ENCODING_MEM_FULL); cbn [fst snd];
    split; (reflexivity || exact H).
Qed.

(** X2.  Whatever state the encoder is in, a call of [ws2812_encode] never
    writes more symbols than the channel memory has free slots; the count
    it returns is exactly the number of symbols it appended to the wire,
    and the free room shrinks by that count. *)
Theorem ws2812_encode_respects_memory (ws : ws2812_encoder_t) (mem : tx_mem)
    (data : list Z) :
  wrote mem (snd (ws2812_encode ws mem data))
    (fst (fst (fst (ws2812_encode ws mem data)))).
Proof.
  unfold ws2812_encode.
  destruct (state ws) as [| [p | p |] | p]; cbn [fst snd];
    try apply wrote_refl.
  - pose proof (rmt_bytes_encode_wrote (bytes_encoder ws) mem data) as H.
    destruct (rmt_bytes_encode _ _ _) as [[[n ss] be] mem1].
    cbn [fst snd] in H.
    destruct (has_flag ss RMT_ENCODING_MEM_FULL).
    + cbn [fst snd]. exact H.
    + match goal with
      | |- context [ws2812_encode_reset ?w ?m ?e ?s] =>
          destruct (ws2812_encode_reset_wrote w m e s) as (k & E & Hk);
          rewrite E
      end.
      cbn [Nat.add]. eapply wrote_trans; eassumption.
  - match goal with
    | |- context [ws2812_encode_reset ?w ?m ?e ?s] =>
        destruct (ws2812_encode_reset_wrote w m e s) as (k & E & Hk);
        rewrite E
    end.
    exact Hk.
Qed.

Lemma has_flag_done (done full : bool) :
  has_flag (Z.lor (if done then RMT_ENCODING_COMPLETE else RMT_ENCODING_RESET)
              (if full then RMT_ENCODING_MEM_FULL else RMT_ENCODING_RESET))
    RMT_ENCODING_COMPLETE = done.
Proof. destruct done, full; reflexivity. Qed.

Lemma has_flag_mem_full (done full : bool) :
  has_flag (Z.lor (if done then RMT_ENCODING_COMPLETE else RMT_ENCODING_RESET)
              (if full then RMT_ENCODING_MEM_FULL else RMT_ENCODING_RESET))
    RMT_ENCODING_MEM_FULL = full.
Proof. destruct done, full; reflexivity. Qed.

(** Either sub-encoder stops short of its input only on a full memory. *)
Lemma rmt_bytes_encode_flags enc mem data :
  let '(_, ss, _, mem') := rmt_bytes_encode enc mem data in
  has_flag ss RMT_ENCODING_MEM_FULL = Nat.eqb (mem_free mem') 0
  /\ (has_flag ss RMT_ENCODING_COMPLETE = false -> mem_free mem' = O).
Proof.
  unfold rmt_bytes_encode. cbn [mem_free].
  rewrite has_flag_done, has_flag_mem_full.
  split; [reflexivity |].
  intros H. apply Nat.eqb_neq in H. lia.
Qed.

Lemma rmt_copy_encode_flags enc mem symbols :
  let '(_, ss, _, mem') := rmt_copy_encode enc mem symbols in
  has_flag ss RMT_ENCODING_MEM_FULL = Nat.eqb (mem_free mem') 0
  /\ (has_flag ss RMT_ENCODING_COMPLETE = false -> mem_free mem' = O).
Proof.
  unfold rmt_copy_encode. cbn [mem_free].
  rewrite has_flag_done, has_flag_mem_full.
  split; [reflexivity |].
  intros H. apply Nat.eqb_neq in H. lia.
Qed.

Lemma ws2812_encode_reset_stops ws mem encoded :
  let '(_, st, ws', mem') :=
    ws2812_encode_reset ws mem encoded RMT_ENCODING_RESET in
  (has_flag st RMT_ENCODING_COMPLETE = true /\ state ws' = 0)
  \/ (has_flag st RMT_ENCODING_COMPLETE = false
      /\ has_flag st RMT_ENCODING_MEM_FULL = true
      /\ mem_free mem' = O).
Proof.
  unfold ws2812_encode_reset.
  pose proof (rmt_copy_encode_flags (copy_encoder ws) mem [reset_code ws])
    as H.
  destruct (rmt_copy_encode _ _ _) as [[[n ss] ce] mem'].
  destruct H as [Hfull Hstop].
  destruct (has_flag ss RMT_ENCODING_COMPLETE) eqn:Hd.
  - left. destruct (has_flag ss RMT_ENCODING_MEM_FULL); split; reflexivity.
  - right. specialize (Hstop eq_refl). rewrite Hstop in Hfull.
    cbn [Nat.eqb] in Hfull. rewrite Hfull.
    repeat split; try reflexivity. exact Hstop.
Qed.

(** X3.  In either phase a call of [ws2812_encode] ends in one of two
    ways: it reports completion, and then the encoder is back in phase A
    for the next frame; or it reports a full memory without completion,
    and then no free slot is left.  It never gives up while there is room. *)
Theorem ws2812_encode_stops_for_a_reason (ws : ws2812_encoder_t)
    (mem : tx_mem) (data : list Z) :
  state ws = 0 \/ state ws = 1 ->
  let '(_, st, ws', mem') := ws2812_encode ws mem data in
  (has_flag st RMT_ENCODING_COMPLETE = true /\ state ws' = 0)
  \/ (has_flag st RMT_ENCODING_COMPLETE = false
      /\ has_flag st RMT_ENCODING_MEM_FULL = true
      /\ mem_free mem' = O).
Proof.
  unfold ws2812_encode. intros [H | H]; rewrite H.
  - pose proof (rmt_bytes_encode_flags (bytes_encoder ws) mem data) as Hb.
    destruct (rmt_bytes_encode _ _ _) as [[[n ss] be] mem1].
    destruct Hb as [Hfull Hstop].
    destruct (has_flag ss RMT_ENCODING_MEM_FULL) eqn:Hf.
    + right. symmetry in Hfull. apply Nat.eqb_eq in Hfull.
      repeat split; try reflexivity. exact Hfull.
    + apply ws2812_encode_reset_stops.
  - apply ws2812_encode_reset_stops.
Qed.

Lemma ws2812_encode_stops_for_a_reason_witness :
  has_flag
    (snd (fst (fst (ws2812_encode ws2812_idle (TxMem 10 []) [255; 128; 0]))))
    RMT_ENCODING_MEM_FULL = true
  /\ has_flag
       (snd (fst (fst (ws2812_encode ws2812_idle (TxMem 64 [])
                         [255; 128; 0]))))
       RMT_ENCODING_COMPLETE = true.
Proof.
  split.
  - pose proof (ws2812_encode_stops_for_a_reason ws2812_idle (TxMem 10 [])
                  [255; 128; 0] (or_introl eq_refl)) as H.
    destruct (ws2812_encode _ _ _) as [[[n st] ws'] mem'] eqn:E.
    cbn [fst snd].
    destruct H as [[Hc _] | (_ & Hf & _)]; [| exact Hf].
    assert (Hn : has_flag st RMT_ENCODING_COMPLETE = false).
    { replace st
        with (snd (fst (fst (ws2812_encode ws2812_idle (TxMem 10 [])
                               [255; 128; 0]))))
        by (rewrite E; reflexivity).
      vm_compute. reflexivity. }
    congruence.
  - pose proof (ws2812_encode_stops_for_a_reason ws2812_idle (TxMem 64 [])
                  [255; 128; 0] (or_introl eq_refl)) as H.
    destruct (ws2812_encode _ _ _) as [[[n st] ws'] mem'] eqn:E.
    cbn [fst snd].
    destruct H as [[Hc _] | (Hc & _ & Hm)]; [exact Hc |].
    assert (Hn : mem_free mem' = 39%nat).
    { replace mem'
        with (snd (ws2812_encode ws2812_idle (TxMem 64 []) [255; 128; 0]))
        by (rewrite E; reflexivity).
      vm_compute. reflexivity. }
    congruence.
Defined.

(** X1.  A session on the idle encoder puts the whole frame of any
    payload on the wire, once and in order, however small the channel
    memory is and however often the encoder has to stop and resume (one
    free slot per pass is enough); it leaves the encoder idle, and the
    frame decodes to the payload. *)
Theorem ws2812_session_resumes (data : list Z) (fuel refill free : nat)
    (w : list rmt_symbol_word_t) :
  Forall is_byte data ->
  (1 <= refill)%nat -> (1 <= free)%nat ->
  (8 * length data + 2 <= fuel)%nat ->
  exists free',
    rmt_tx_session fuel refill ws2812_idle (TxMem free w) data
    = Some ((8 * length data + 1)%nat, ws2812_idle,
            TxMem free' (w ++ ws2812_frame ws2812_idle data))
    /\ decode_bytes (length data) (ws2812_frame ws2812_idle data) = data.
Proof.
  intros Hb Hr Hf Hfuel.
  destruct (rmt_tx_session_frame fuel refill ws2812_idle free w data
              ws2812_idle_is_idle Hr Hf Hfuel) as (free' & E).
  exists free'. split; [exact E | apply decode_frame; exact Hb].
Qed.

Lemma ws2812_session_resumes_witness :
  exists free',
    rmt_tx_session 26 1 ws2812_idle (TxMem 1 []) [255; 128; 0]
    = Some (25%nat, ws2812_idle,
            TxMem free' (ws2812_frame ws2812_idle [255; 128; 0])).
Proof.
  assert (Hb : Forall is_byte [255; 128; 0])
    by (repeat (apply Forall_cons; [unfold is_byte; lia |]);
        apply Forall_nil).
  destruct (ws2812_session_resumes [255; 128; 0] 26 1 1 [] Hb)
    as (free' & E & _); try (cbn [length]; lia).
  exists free'. exact E.
Defined.

(** X4.  [ws2812_reset] brings an encoder back to the start of phase A
    from any state, also from the middle of a frame, without touching its
    timing: the next session sends a whole frame. *)
Theorem ws2812_reset_restarts (ws : ws2812_encoder_t) (data : list Z)
    (fuel refill free : nat) (w : list rmt_symbol_word_t) :
  (1 <= refill)%nat -> (1 <= free)%nat ->
  (8 * length data + 2 <= fuel)%nat ->
  encoder_idle (ws2812_reset ws)
  /\ ws2812_reset (ws2812_reset ws) = ws2812_reset ws
  /\ ws2812_frame (ws2812_reset ws) data = ws2812_frame ws data
  /\ exists free',
       rmt_tx_session fuel refill (ws2812_reset ws) (TxMem free w) data
       = Some ((8 * length data + 1)%nat, ws2812_reset ws,
               TxMem free' (w ++ ws2812_frame ws data)).
Proof.
  intros Hr Hf Hfuel.
  assert (Hidle : encoder_idle (ws2812_reset ws)) by (repeat split).
  split; [exact Hidle |]. split; [reflexivity |]. split; [reflexivity |].
  destruct (rmt_tx_session_frame fuel refill (ws2812_reset ws) free w data
              Hidle Hr Hf Hfuel) as (free' & E).
  exists free'. exact E.
Qed.

Lemma ws2812_reset_restarts_witness :
  encoder_idle
    (ws2812_reset (Ws2812 (BytesEnc bytes_cfg_ws2812 10) (CopyEnc O) 0
                     (Symbol 0 400 0 400)))
  /\ ws2812_reset (Ws2812 (BytesEnc bytes_cfg_ws2812 10) (CopyEnc O) 0
                     (Symbol 0 400 0 400)) = ws2812_idle.
Proof.
  destruct (ws2812_reset_restarts
              (Ws2812 (BytesEnc bytes_cfg_ws2812 10) (CopyEnc O) 0
                 (Symbol 0 400 0 400)) [255; 128; 0] 26 32 64 [])
    as (H & _); try (cbn [length]; lia).
  split; [exact H | reflexivity].
Defined.

(** ** Frame timing *)





(** ** The classifier over time *)

(** X6.  Once [getBatteryColor] has run, [current_zone] is one of 0..3
    and stays so: whatever levels follow, also negative ones or ones
    above 100, the zone never leaves 0..3 and never returns to the unset
    value -1. *)
Theorem zone_stays_set (levels : list Z) :
  forall m : machine,
    -1 <= current_zone m <= 3 ->
    Forall (fun zone => 0 <= zone <= 3) (fst (classify_seq levels m))
    /\ (levels <> [] -> 0 <= current_zone (snd (classify_seq levels m)) <= 3)
    /\ -1 <= current_zone (snd (classify_seq levels m)) <= 3.
Proof.
  induction levels as [| level rest IH]; intros m Hz.
  - split; [constructor |]. split; [congruence | exact Hz].
  - rewrite classify_seq_cons, classify_seq_cons_state.
    pose proof (next_zone_range (current_zone m) level Hz) as Hn.
    destruct (IH (snd (getBatteryColor level m))) as (IH1 & IH2 & IH3).
    { rewrite getBatteryColor_zone. lia. }
    split; [apply Forall_cons; assumption |].
    split; [| exact IH3].
    intros _. destruct rest as [| l rest'].
    + cbn. exact Hn.
    + apply IH2. discriminate.
Qed.

Lemma zone_stays_set_witness :
  Forall (fun zone => 0 <= zone <= 3)
    (fst (classify_seq [-40; 250; 0; 100] boot)).
Proof.
  destruct (zone_stays_set [-40; 250; 0; 100] boot) as (H & _).
  - cbn. lia.
  - exact H.
Defined.

(** X7.  The first reading is classified by the plain thresholds 25, 50,
    75: for a level of 0 or more the zone is the level divided by 25, capped
    at 3, and a negative level gives zone 0. *)
Theorem first_reading_plain_thresholds (m : machine) (level : Z) :
  current_zone m = -1 ->
  current_zone (snd (getBatteryColor level m))
  = if level <? 0 then 0 else Z.min 3 (level / 25).
Proof.
  intros H. rewrite getBatteryColor_zone, H. unfold next_zone.
  change (-1 =? -1) with true. cbv iota.
  destruct (Z.ltb_spec level 0).
  - destruct (Z.ltb_spec level 25); [reflexivity | lia].
  - pose proof (Z.div_mod level 25 ltac:(lia)) as Hdm.
    pose proof (Z.mod_pos_bound level 25 ltac:(lia)) as Hmod.
    generalize dependent (level mod 25). generalize dependent (level / 25).
    intros q r Hdm Hmod.
    destruct (Z.ltb_spec level 25); [lia |].
    destruct (Z.ltb_spec level 50); [lia |].
    destruct (Z.ltb_spec level 75); lia.
Qed.

Lemma first_reading_plain_thresholds_witness :
  current_zone (snd (getBatteryColor 74 boot)) = 2.
Proof. exact (first_reading_plain_thresholds boot 74 eq_refl). Defined.

(** X8.  With a steady level the classifier settles: after at most three
    calls the zone no longer changes, and the zone it settles in is the
    plain classification of the level or, within 3 of a threshold, the
    neighbouring zone it came from. *)
Theorem steady_level_settles (m : machine) (level : Z) :
  0 <= current_zone m <= 3 ->
  let m3 := snd (classify_seq [level; level; level] m) in
  let zone := current_zone m3 in
  current_zone (snd (getBatteryColor level m3)) = zone
  /\ (zone = 0 \/ plain_threshold (zone - 1) - 3 <= level)
  /\ (zone = 3 \/ level < plain_threshold zone + 3).
Proof.
  intros Hz. cbv zeta.
  rewrite !classify_seq_cons_state. cbn [classify_seq ret snd].
  rewrite !getBatteryColor_zone.
  zone_cases (current_zone m) level.
Qed.

Lemma steady_level_settles_witness :
  0 <= current_zone (snd (getBatteryColor 10 boot)) <= 3
  /\ current_zone
       (snd (getBatteryColor 90
               (snd (classify_seq [90; 90; 90]
                       (snd (getBatteryColor 10 boot))))))
     = current_zone
         (snd (classify_seq [90; 90; 90] (snd (getBatteryColor 10 boot)))).
Proof.
  assert (Hz : 0 <= current_zone (snd (getBatteryColor 10 boot)) <= 3)
    by (cbn; lia).
  split; [exact Hz |].
  exact (proj1 (steady_level_settles (snd (getBatteryColor 10 boot)) 90 Hz)).
Defined.

(** X10.  The color tells the zone: two different zones of 0..3 never get
    the same color, so the zone can be read back from the LED. *)
Theorem zone_color_injective (z1 z2 : Z) :
  0 <= z1 <= 3 -> 0 <= z2 <= 3 ->
  zone_color z1 = zone_color z2 -> z1 = z2.
Proof.
  intros H1 H2.
  assert (C1 : z1 = 0 \/ z1 = 1 \/ z1 = 2 \/ z1 = 3) by lia.
  assert (C2 : z2 = 0 \/ z2 = 1 \/ z2 = 2 \/ z2 = 3) by lia.
  destruct C1 as [-> | [-> | [-> | ->]]];
    destruct C2 as [-> | [-> | [-> | ->]]];
    cbn; intros E; (reflexivity || discriminate E).
Qed.

Lemma zone_color_injective_witness :
  zone_color (current_zone (snd (getBatteryColor 60 boot))) = zone_color 2
  /\ current_zone (snd (getBatteryColor 60 boot)) = 2.
Proof.
  split; [reflexivity |].
  apply zone_color_injective; [cbn; lia | lia | reflexivity].
Defined.

(** ** No flicker *)

Lemma next_zone_moves (z level : Z) :
  0 <= z <= 3 ->
  (next_zone z level = z + 1 /\ z <= 2 /\ 25 * (z + 1) + 3 <= level)
  \/ (next_zone z level = z - 1 /\ 1 <= z /\ level < 25 * z - 3)
  \/ (next_zone z level = z).
Proof. intros Hz. zone_cases z level. Qed.

(** Readings that cannot take the zone down leave the zones ascending. *)
Lemma zones_ascend (a : Z) (levels : list Z) :
  forall m : machine,
    0 <= current_zone m <= 3 ->
    25 * current_zone m - 3 <= a ->
    Forall (fun l => a <= l <= a + 6) levels ->
    Sorted Z.le (current_zone m :: fst (classify_seq levels m)).
Proof.
  induction levels as [| level rest IH]; intros m Hz Ha Hall.
  - repeat constructor.
  - inversion Hall as [| ? ? Hl Hrest]; subst.
    rewrite classify_seq_cons.
    specialize (IH (snd (getBatteryColor level m))).
    rewrite getBatteryColor_zone in IH.
    destruct (next_zone_moves (current_zone m) level Hz)
      as [(E & Hk & Hup) | [(E & Hk & Hdown) | E]]; try lia;
      rewrite E in *.
    + apply Sorted_cons; [apply IH; (lia || exact Hrest) |].
      apply HdRel_cons. lia.
    + apply Sorted_cons; [apply IH; (lia || exact Hrest) |].
      apply HdRel_cons. lia.
Qed.

(** Readings that cannot take the zone up leave the zones descending. *)
Lemma zones_descend (a : Z) (levels : list Z) :
  forall m : machine,
    0 <= current_zone m <= 3 ->
    a + 6 < 25 * (current_zone m + 1) + 3 ->
    Forall (fun l => a <= l <= a + 6) levels ->
    Sorted Z.ge (current_zone m :: fst (classify_seq levels m)).
Proof.
  induction levels as [| level rest IH]; intros m Hz Ha Hall.
  - repeat constructor.
  - inversion Hall as [| ? ? Hl Hrest]; subst.
    rewrite classify_seq_cons.
    specialize (IH (snd (getBatteryColor level m))).
    rewrite getBatteryColor_zone in IH.
    destruct (next_zone_moves (current_zone m) level Hz)
      as [(E & Hk & Hup) | [(E & Hk & Hdown) | E]]; try lia;
      rewrite E in *.
    + apply Sorted_cons; [apply IH; (lia || exact Hrest) |].
      apply HdRel_cons. lia.
    + apply Sorted_cons; [apply IH; (lia || exact Hrest) |].
      apply HdRel_cons. lia.
Qed.

(** X9.  Readings that stay within a span of 6 percent never make the LED
    flicker: from a held zone the zones they produce only ascend or only
    descend, so no zone that was left is entered again.  (A span of 7 is
    too much: 28, 21, 28 from zone 0 gives the zones 1, 0, 1.) *)
Theorem narrow_readings_never_flicker (a : Z) (levels : list Z) :
  forall m : machine,
    0 <= current_zone m <= 3 ->
    Forall (fun l => a <= l <= a + 6) levels ->
    Sorted Z.le (current_zone m :: fst (classify_seq levels m))
    \/ Sorted Z.ge (current_zone m :: fst (classify_seq levels m)).
Proof.
  induction levels as [| level rest IH]; intros m Hz Hall.
  - left. repeat constructor.
  - inversion Hall as [| ? ? Hl Hrest]; subst.
    destruct (next_zone_moves (current_zone m) level Hz)
      as [(E & Hk & Hup) | [(E & Hk & Hdown) | E]].
    + left. apply zones_ascend with (a := a);
        [exact Hz | lia | exact Hall].
    + right. apply zones_descend with (a := a);
        [exact Hz | lia | exact Hall].
    + rewrite classify_seq_cons.
      specialize (IH (snd (getBatteryColor level m))).
      rewrite getBatteryColor_zone, E in *.
      destruct (IH Hz Hrest) as [H | H]; [left | right];
        (apply Sorted_cons; [exact H | apply HdRel_cons; lia]).
Qed.

Lemma narrow_readings_never_flicker_witness :
  Sorted Z.le
    (current_zone (snd (getBatteryColor 24 boot))
       :: fst (classify_seq [23; 28; 26; 22; 27]
                 (snd (getBatteryColor 24 boot))))
  \/ Sorted Z.ge
       (current_zone (snd (getBatteryColor 24 boot))
          :: fst (classify_seq [23; 28; 26; 22; 27]
                    (snd (getBatteryColor 24 boot)))).
Proof.
  apply (narrow_readings_never_flicker 22).
  - cbn. lia.
  - repeat (apply Forall_cons; [lia |]). apply Forall_nil.
Defined.

(** ** The clock *)

(** X11.  The interval test survives the rollover of [millis()]: if the
    counter was set [d] milliseconds ago, [loop] finds [d] elapsed also
    when the 32-bit clock has wrapped around in between, so it neither
    skips an update nor makes one early. *)
Theorem loop_survives_rollover (hw : platform) (m : machine) (c d : Z) :
  last_update m = c mod 2 ^ 32 -> clock m = c + d -> 0 <= d < 2 ^ 32 ->
  elapsed (clock m mod 2 ^ 32) (last_update m) = d
  /\ (d <= BATTERY_UPDATE_MS -> loop hw m = (tt, snd (delay 100 m)))
  /\ (d > BATTERY_UPDATE_MS ->
      last_update (snd (loop hw m)) = (c + d) mod 2 ^ 32
      /\ adc_reads (snd (loop hw m)) = (adc_reads m + 8)%nat).
Proof.
  intros Hlu Hck Hd.
  assert (He : elapsed (clock m mod 2 ^ 32) (last_update m) = d)
    by (rewrite Hlu, Hck; apply elapsed_after; exact Hd).
  split; [exact He |]. split.
  - intros Hle. apply loop_idle. rewrite He. exact Hle.
  - intros Hgt. rewrite loop_update by (rewrite He; exact Hgt).
    remember (snd (set_last_update (clock m mod 2 ^ 32) m)) as m0 eqn:Hm0.
    destruct (update_led_frame hw m0) as (_ & _ & F3 & _ & F5 & _).
    remember (snd (update_led hw m0)) as m1 eqn:Hm1.
    cbn [delay snd last_update adc_reads].
    rewrite F3, F5, Hm0. cbn [set_last_update snd last_update adc_reads].
    rewrite Hck. split; reflexivity.
Qed.

Lemma loop_survives_rollover_witness :
  last_update
    (snd (loop (Platform (fun _ => 1800) ESP_OK ESP_OK ESP_OK true ESP_OK
                  ESP_OK ESP_OK)
            (Machine (Some (TxChan 10000000 64 true)) (Some ws2812_idle) None
               1 4294962296 4294972297 8%nat [])))
  = 5001.
Proof.
  destruct (loop_survives_rollover
              (Platform (fun _ => 1800) ESP_OK ESP_OK ESP_OK true ESP_OK
                 ESP_OK ESP_OK)
              (Machine (Some (TxChan 10000000 64 true)) (Some ws2812_idle)
                 None 1 4294962296 4294972297 8%nat [])
              4294962296 10001) as (_ & _ & H);
    [reflexivity | reflexivity | vm_compute; split; [discriminate | reflexivity] |].
  destruct H as [H _]; [vm_compute; reflexivity |].
  rewrite H. reflexivity.
Defined.

(** ** The display *)

Lemma led_path_silent_on_display evs :
  forallb is_led_path evs = true ->
  spi_bytes evs = [] /\ gpio_levels evs = [].
Proof.
  induction evs as [| ev evs IH]; [split; reflexivity |].
  cbn [forallb]. intros H. apply andb_true_iff in H. destruct H as [H1 H2].
  destruct ev; cbn in *; try discriminate; auto.
Qed.

Lemma update_led_keeps_display hw m :
  spi_lcd (snd (update_led hw m)) = spi_lcd m.
Proof. destruct (update_led_frame hw m) as (_ & H & _). exact H. Qed.

Lemma loop_keeps_display hw m : spi_lcd (snd (loop hw m)) = spi_lcd m.
Proof.
  destruct (Z.gtb_spec (elapsed (clock m mod 2 ^ 32) (last_update m))
              BATTERY_UPDATE_MS) as [Hgt | Hle].
  - rewrite loop_update by lia.
    remember (snd (set_last_update (clock m mod 2 ^ 32) m)) as m0 eqn:Hm0.
    pose proof (update_led_keeps_display hw m0) as H.
    remember (snd (update_led hw m0)) as m1 eqn:Hm1.
    cbn [delay snd spi_lcd]. rewrite H, Hm0. reflexivity.
  - rewrite loop_idle by exact Hle. reflexivity.
Qed.

Lemma loops_keep_display hw n :
  forall m, spi_lcd (snd (loops hw n m)) = spi_lcd m.
Proof.
  induction n as [| n IH]; intros m; [reflexivity |].
  rewrite loops_snoc, loop_keeps_display. apply IH.
Qed.

Lemma setup_led_keeps_display hw m :
  spi_lcd (snd (setup_led hw m)) = spi_lcd m.
Proof.
  destruct (led_initialized hw) eqn:Hled.
  - rewrite setup_led_initialized by exact Hled.
    rewrite update_led_keeps_display. reflexivity.
  - destruct (setup_led_failed hw m Hled) as (chan & enc & -> & _).
    reflexivity.
Qed.

(** X12.  The display gets its sleep handshake once or not at all: over
    the whole run the bytes sent to the controller are SLPOUT, COLMOD 0x55,
    MADCTL 0x60, DISPOFF, SLPIN when the bus and the device were acquired,
    and none otherwise; the reset line is pulsed low then high once, the
    data/command line is high for the two parameter bytes only; [loop]
    never touches the display. *)
Theorem display_handshake_sent_once (hw : platform) (n : nat) :
  spi_bytes (trace (run hw n))
  = (if display_acquired hw then [17; 58; 85; 54; 96; 40; 16] else [])
  /\ gpio_levels (trace (run hw n))
     = (if display_acquired hw
        then [(LCD_RST, 0); (LCD_RST, 1); (LCD_DC, 0); (LCD_DC, 0);
              (LCD_DC, 1); (LCD_DC, 0); (LCD_DC, 1); (LCD_DC, 0);
              (LCD_DC, 0)]
        else [])
  /\ spi_lcd (run hw n)
     = (if display_acquired hw then Some 40000000 else None).
Proof.
  rewrite run_loops, setup_steps, setup_backlight_run.
  cbn [snd].
  remember (Machine (led_chan boot) (led_encoder boot) (spi_lcd boot)
              (current_zone boot) (last_update boot) (clock boot)
              (adc_reads boot)
              (trace boot
               ++ [LedcTimerConfig 14 1000;
                   LedcChannelConfig LCD_BL_PIN MIN_BACKLIGHT_DUTY]))
    as m0 eqn:Hm0.
  assert (Hd : spi_bytes (trace (snd (setup_display hw m0)))
               = (if display_acquired hw then [17; 58; 85; 54; 96; 40; 16]
                  else [])
               /\ gpio_levels (trace (snd (setup_display hw m0)))
                  = (if display_acquired hw
                     then [(LCD_RST, 0); (LCD_RST, 1); (LCD_DC, 0);
                           (LCD_DC, 0); (LCD_DC, 1); (LCD_DC, 0);
                           (LCD_DC, 1); (LCD_DC, 0); (LCD_DC, 0)]
                     else [])
               /\ spi_lcd (snd (setup_display hw m0))
                  = (if display_acquired hw then Some 40000000 else None)).
  { destruct (display_acquired hw) eqn:E.
    - rewrite setup_display_acquired by exact E. rewrite Hm0.
      repeat split; reflexivity.
    - rewrite setup_display_skipped by exact E. rewrite Hm0.
      repeat split; reflexivity. }
  remember (snd (setup_display hw m0)) as m1 eqn:Hm1.
  destruct Hd as (Hb & Hg & Hs).
  destruct (appends_setup_led hw m1) as (e2 & H2 & F2).
  pose proof (setup_led_keeps_display hw m1) as K2.
  remember (snd (setup_led hw m1)) as m2 eqn:Hm2.
  destruct (appends_loops hw n m2) as (e3 & H3 & F3).
  pose proof (loops_keep_display hw n m2) as K3.
  remember (snd (loops hw n m2)) as m3 eqn:Hm3.
  destruct (led_path_silent_on_display e2 F2) as [B2 G2].
  destruct (led_path_silent_on_display e3 F3) as [B3 G3].
  rewrite H3, H2, !spi_bytes_app, !gpio_levels_app, B2, B3, G2, G3,
    !app_nil_r, K3, K2.
  repeat split; assumption.
Qed.

(** ** The colors on the wire *)

Lemma zone_color_in_table z : In (grb (zone_color z)) table_frames.
Proof.
  unfold table_frames, color_table, grb. cbn [map snd].
  destruct z as [| [p | p |] |]; cbn; try destruct p; cbn; auto 6.
Qed.

Lemma sends_table_color_zone z w :
  sends_table_color
    (RmtTransmit [green (zone_color z); red (zone_color z);
                  blue (zone_color z)] w) = true.
Proof.
  unfold sends_table_color. apply existsb_exists.
  exists (grb (zone_color z)). split; [apply zone_color_in_table |].
  unfold grb. destruct (list_eq_dec Z.eq_dec _ _) as [_ | Hne];
    [reflexivity | now elim Hne].
Qed.

Lemma appends_table_getBatteryLevel hw :
  appends sends_table_color (getBatteryLevel hw).
Proof.
  intros m. rewrite getBatteryLevel_run. cbn [snd trace].
  eexists. split; [reflexivity |].
  apply forallb_forall. intros ev Hin.
  apply in_map_iff in Hin. destruct Hin as (mv & <- & _). reflexivity.
Qed.

Lemma appends_table_setLedColor z :
  appends sends_table_color
    (setLedColor (red (zone_color z)) (green (zone_color z))
       (blue (zone_color z))).
Proof.
  intros m. unfold setLedColor.
  destruct (led_chan m) as [chan |]; [| exists []; cbn; now rewrite app_nil_r].
  destruct (led_encoder m) as [ws |]; [| exists []; cbn; now rewrite app_nil_r].
  revert m. apply appends_bind; [| intros _; apply appends_ret].
  unfold rmt_transmit.
  destruct (enabled chan); [| apply appends_ret].
  destruct (rmt_tx_session _ _ _ _ _) as [[[k ws'] mem'] |];
    [| apply appends_ret].
  apply appends_bind; [apply appends_set_led_encoder | intros _].
  apply appends_bind; [| intros _; apply appends_ret].
  apply appends_emit. apply sends_table_color_zone.
Qed.

Lemma appends_table_update_led hw :
  appends sends_table_color (update_led hw).
Proof.
  unfold update_led.
  apply appends_bind; [apply appends_table_getBatteryLevel | intros level].
  intros m. rewrite bind_run, getBatteryColor_run. cbn [fst snd].
  destruct (appends_table_setLedColor (next_zone (current_zone m) level)
              (snd (set_current_zone (next_zone (current_zone m) level) m)))
    as (evs & H & F).
  exists evs. split; [exact H | exact F].
Qed.

Lemma appends_table_loop hw : appends sends_table_color (loop hw).
Proof.
  unfold loop.
  apply appends_bind; [apply appends_millis | intros now].
  apply appends_bind; [| intros _; apply appends_delay].
  intros m.
  destruct (elapsed now (last_update m) >? BATTERY_UPDATE_MS).
  - apply (appends_bind sends_table_color millis); [apply appends_millis |].
    intros now'.
    apply appends_bind; [apply appends_set_last_update | intros _].
    apply appends_table_update_led.
  - apply appends_ret.
Qed.

Lemma appends_table_loops hw n : appends sends_table_color (loops hw n).
Proof.
  induction n as [| n IH]; cbn [loops]; [apply appends_ret |].
  apply appends_bind; [apply appends_table_loop | intros _; exact IH].
Qed.

Lemma appends_table_setup hw : appends sends_table_color (setup hw).
Proof.
  unfold setup.
  apply appends_bind.
  { unfold setup_backlight.
    apply appends_bind; [apply appends_emit; reflexivity | intros _].
    apply appends_emit; reflexivity. }
  intros _. apply appends_bind.
  { apply (appends_weaken is_display_path); [| apply appends_setup_display].
    intros [] H; try discriminate; reflexivity. }
  intros _. unfold setup_led.
  destruct (negb (rmt_new_tx_channel_ret hw =? ESP_OK)); [apply appends_ret |].
  apply appends_bind; [apply appends_set_led_chan | intros _].
  destruct (ws2812_encoder_new _ _ _) as [err enc].
  destruct (negb (err =? ESP_OK)); [apply appends_ret |].
  apply appends_bind; [apply appends_set_led_encoder | intros _].
  destruct (negb (rmt_enable_ret hw =? ESP_OK)); [apply appends_ret |].
  apply appends_bind; [apply appends_set_led_chan | intros _].
  apply appends_bind; [apply appends_delay | intros _].
  apply appends_table_update_led.
Qed.

Lemma table_frames_only evs :
  forallb sends_table_color evs = true ->
  Forall (fun f => In f table_frames) (led_frames evs).
Proof.
  induction evs as [| ev evs IH]; [constructor |].
  cbn [forallb]. intros H. apply andb_true_iff in H. destruct H as [H1 H2].
  destruct ev; cbn [led_frames]; auto.
  constructor; [| auto].
  unfold sends_table_color in H1. apply existsb_exists in H1.
  destruct H1 as (f & Hin & Heq).
  destruct (list_eq_dec Z.eq_dec payload f) as [-> | _];
    [exact Hin | discriminate].
Qed.

(** X13.  Whatever the battery reads and however long the program runs,
    the LED is only ever sent one of the four table colors, as the three
    bytes green, red, blue: red, orange, yellow or green, never off and
    never anything in between. *)
Theorem only_table_colors_sent (hw : platform) (n : nat) :
  Forall (fun f => In f [[0; 255; 0]; [128; 255; 0]; [255; 255; 0];
                         [255; 0; 0]])
    (led_frames (trace (run hw n))).
Proof.
  change [[0; 255; 0]; [128; 255; 0]; [255; 255; 0]; [255; 0; 0]]
    with table_frames.
  unfold run.
  destruct (appends_bind sends_table_color (setup hw)
              (fun _ => loops hw n) (appends_table_setup hw)
              (fun _ => appends_table_loops hw n) boot) as (evs & H & F).
  rewrite H. cbn [boot trace app].
  apply table_frames_only. exact F.
Qed.

(** ** The LED path over the whole run *)

(** One cycle on a ready LED path leaves it ready, with a zone set, eight
    more conversions and one more frame. *)
Lemma update_led_cycle hw m :
  led_ready m -> -1 <= current_zone m <= 3 ->
  led_ready (snd (update_led hw m))
  /\ 0 <= current_zone (snd (update_led hw m)) <= 3
  /\ adc_reads (snd (update_led hw m)) = (adc_reads m + 8)%nat
  /\ length (led_frames (trace (snd (update_led hw m))))
     = S (length (led_frames (trace m))).
Proof.
  intros (chan & Hc & Hen & Hon & Hmem) Hz.
  rewrite (update_led_ready hw m chan ws2812_idle Hc Hen Hon Hmem
             ws2812_idle_is_idle).
  cbn [snd current_zone adc_reads trace].
  split.
  { exists chan. cbn [led_chan led_encoder]. auto. }
  split.
  { apply next_zone_range. exact Hz. }
  split; [reflexivity |].
  rewrite !led_frames_app, led_frames_analog_reads.
  cbn [led_frames app]. rewrite length_app. cbn [length]. lia.
Qed.

Lemma loop_cycle hw m :
  led_ready m -> 0 <= current_zone m <= 3 ->
  adc_reads m = (8 * length (led_frames (trace m)))%nat ->
  led_ready (snd (loop hw m))
  /\ 0 <= current_zone (snd (loop hw m)) <= 3
  /\ adc_reads (snd (loop hw m))
     = (8 * length (led_frames (trace (snd (loop hw m)))))%nat
  /\ (length (led_frames (trace m))
      <= length (led_frames (trace (snd (loop hw m)))))%nat.
Proof.
  intros Hr Hz Ha.
  destruct (Z.gtb_spec (elapsed (clock m mod 2 ^ 32) (last_update m))
              BATTERY_UPDATE_MS) as [Hgt | Hle].
  - rewrite loop_update by lia.
    remember (snd (set_last_update (clock m mod 2 ^ 32) m)) as m0 eqn:Hm0.
    assert (Hr0 : led_ready m0) by (rewrite Hm0; exact Hr).
    assert (Ha0 : adc_reads m0 = adc_reads m) by (rewrite Hm0; reflexivity).
    assert (Ht0 : trace m0 = trace m) by (rewrite Hm0; reflexivity).
    assert (Hz0 : -1 <= current_zone m0 <= 3)
      by (rewrite Hm0; cbn [set_last_update snd current_zone]; lia).
    pose proof (update_led_cycle hw m0 Hr0 Hz0) as C. revert C.
    generalize (snd (update_led hw m0)). intros m1 (R & Z1 & A & L).
    cbn [delay snd current_zone adc_reads trace].
    split; [exact R |]. split; [exact Z1 |].
    rewrite A, L, Ha0, Ht0, Ha. split; lia.
  - rewrite loop_idle by exact Hle.
    cbn [delay snd current_zone adc_reads trace].
    split; [exact Hr |]. split; [exact Hz |]. split; [exact Ha | lia].
Qed.

(** X14.  When the LED initialisation succeeds the LED path stays up for
    good: at every iteration the channel and the encoder are ready for the
    next frame, a zone of 0..3 is held, and every classification went with
    exactly one frame (eight conversions per frame sent, the first one in
    [setup]). *)
Theorem led_path_stays_up (hw : platform) (n : nat) :
  led_initialized hw = true ->
  led_ready (run hw n)
  /\ 0 <= current_zone (run hw n) <= 3
  /\ adc_reads (run hw n)
     = (8 * length (led_frames (trace (run hw n))))%nat
  /\ (1 <= length (led_frames (trace (run hw n))))%nat.
Proof.
  intros Hled. induction n as [| n IH].
  - rewrite run_loops. cbn [loops ret snd].
    destruct (setup_state hw) as (_ & _ & Hok & _).
    destruct (Hok Hled) as (Hr & Ha & c & Hf).
    destruct (setup_led_cycle hw Hled)
      as (m1 & _ & _ & _ & Hz1 & _ & _ & Hs).
    split; [exact Hr |]. split.
    { rewrite Hs.
      match goal with
      | |- context [update_led hw ?m0] =>
          destruct (update_led_frame hw m0) as (_ & _ & _ & _ & _ & F6)
      end.
      rewrite F6. apply next_zone_range.
      cbn [current_zone]. rewrite Hz1. lia. }
    rewrite Ha, Hf. split; cbn [length]; lia.
  - destruct IH as (Hr & Hz & Ha & Hl).
    rewrite run_succ.
    destruct (loop_cycle hw (run hw n) Hr Hz Ha) as (R & Z1 & A & L).
    split; [exact R |]. split; [exact Z1 |]. split; [exact A | lia].
Qed.

Lemma led_path_stays_up_witness :
  adc_reads (run (Platform (fun _ => 1800) ESP_OK ESP_OK ESP_OK true ESP_OK
                    ESP_OK ESP_OK) 97)
  = Nat.mul 8
      (length
         (led_frames
            (trace (run (Platform (fun _ => 1800) ESP_OK ESP_OK ESP_OK true
                           ESP_OK ESP_OK ESP_OK) 97)))).
Proof.
  destruct (led_path_stays_up
              (Platform (fun _ => 1800) ESP_OK ESP_OK ESP_OK true ESP_OK
                 ESP_OK ESP_OK) 97) as (_ & _ & H & _);
    [reflexivity | exact H].
Defined.

Lemma setLedColor_down r g b m :
  led_down m -> setLedColor r g b m = (tt, m).
Proof.
  unfold led_down, setLedColor.
  destruct (led_chan m) as [chan |]; [| reflexivity].
  destruct (led_encoder m) as [ws |]; [| reflexivity].
  intros H. unfold bind, rmt_transmit. rewrite H. reflexivity.
Qed.

Lemma update_led_down hw m :
  led_down m ->
  led_down (snd (update_led hw m))
  /\ led_frames (trace (snd (update_led hw m))) = led_frames (trace m)
  /\ adc_reads (snd (update_led hw m)) = (adc_reads m + 8)%nat.
Proof.
  intros Hd. unfold update_led. rewrite !bind_run.
  rewrite getBatteryLevel_run, getBatteryColor_run. cbn [fst snd].
  rewrite setLedColor_down by exact Hd.
  cbn [snd set_current_zone trace adc_reads].
  split; [exact Hd |].
  rewrite led_frames_app, led_frames_analog_reads, app_nil_r.
  split; reflexivity.
Qed.

Lemma loop_down hw m :
  led_down m ->
  led_down (snd (loop hw m))
  /\ led_frames (trace (snd (loop hw m))) = led_frames (trace m).
Proof.
  intros Hd.
  destruct (Z.gtb_spec (elapsed (clock m mod 2 ^ 32) (last_update m))
              BATTERY_UPDATE_MS) as [Hgt | Hle].
  - rewrite loop_update by lia.
    remember (snd (set_last_update (clock m mod 2 ^ 32) m)) as m0 eqn:Hm0.
    assert (Hd0 : led_down m0) by (rewrite Hm0; exact Hd).
    assert (Ht0 : trace m0 = trace m) by (rewrite Hm0; reflexivity).
    pose proof (update_led_down hw m0 Hd0) as C. revert C.
    generalize (snd (update_led hw m0)). intros m1 (D & F & _).
    cbn [delay snd trace]. split; [exact D |]. rewrite F, Ht0. reflexivity.
  - rewrite loop_idle by exact Hle. split; [exact Hd | reflexivity].
Qed.

(** X15.  When any step of the LED initialisation fails, [setup] returns
    early and the LED path stays down for good: no frame is ever sent,
    neither by [setup] nor by any iteration of [loop], although [loop]
    keeps running and calls [setLedColor] every ten seconds. *)
Theorem led_path_stays_down (hw : platform) (n : nat) :
  led_initialized hw = false ->
  led_down (run hw n) /\ led_frames (trace (run hw n)) = [].
Proof.
  intros Hled. induction n as [| n IH].
  - rewrite run_loops. cbn [loops ret snd].
    destruct (setup_state hw) as (_ & _ & _ & Hko).
    destruct (Hko Hled) as (_ & Hf).
    split; [| exact Hf].
    rewrite setup_steps.
    destruct (setup_before_led hw) as (Hc & _).
    cbv zeta in Hc. revert Hc.
    generalize (snd (setup_display hw (snd (setup_backlight boot)))).
    intros m1 Hc.
    destruct (setup_led_failed hw m1 Hled) as (chan & enc & -> & Hchan & _).
    unfold led_down. cbn [snd led_chan led_encoder].
    rewrite Hc in Hchan.
    destruct Hchan as [-> | ->]; [exact I |].
    destruct enc; [reflexivity | exact I].
  - destruct IH as (Hd & Hf). rewrite run_succ.
    destruct (loop_down hw (run hw n) Hd) as (D & F).
    split; [exact D |]. rewrite F. exact Hf.
Qed.

Lemma led_path_stays_down_witness :
  led_frames
    (trace (run (Platform (fun _ => 1800) ESP_OK ESP_OK ESP_OK true ESP_OK
                   ESP_OK ESP_FAIL) 150)) = [].
Proof.
  destruct (led_path_stays_down
              (Platform (fun _ => 1800) ESP_OK ESP_OK ESP_OK true ESP_OK
                 ESP_OK ESP_FAIL) 150) as (_ & H);
    [reflexivity | exact H].
Defined.

(** ** The accuracy of the level *)

Lemma accuracy_check_all :
  forall_from (Z.to_nat 601) 1500 accuracy_check = true.
Proof. vm_cast_no_check (eq_refl true). Qed.

(** X16.  The level [getBatteryLevel] returns is the exact percentage of
    the averaged reading between 3000 mV and 4200 mV, clamped to 0..100 and
    rounded down, or one below it: the [float] arithmetic never costs more
    than one percent and never reports too much. *)
Theorem getBatteryLevel_accuracy (hw : platform) (m : machine) :
  readings_in_range hw m ->
  let avg := Z.quot (accumulate (adc_samples hw (adc_reads m) 8)) 8 in
  let exact := constrain (exact_percent avg) 0 100 in
  exact - 1 <= fst (getBatteryLevel hw m) <= exact.
Proof.
  intros Hr. cbv zeta.
  rewrite getBatteryLevel_value, measured_voltage_run.
  pose proof (average_in_range hw m Hr) as Havg. revert Havg.
  generalize (Z.quot (accumulate (adc_samples hw (adc_reads m) 8)) 8).
  intros avg Havg.
  destruct (level_of_millivolts avg Havg) as [Hlow Hhigh].
  assert (Hmid : 1500 <= avg < 1500 + Z.of_nat (Z.to_nat 601) ->
                 accuracy_check avg = true)
    by (apply (forall_from_spec accuracy_check _ 1500 accuracy_check_all)).
  unfold accuracy_check in Hmid. cbv zeta in Hmid.
  revert Hlow Hhigh Hmid.
  generalize (level_of_voltage (voltage_of_avg avg)). intros l Hlow Hhigh Hmid.
  unfold constrain, exact_percent in *.
  change (Z.of_nat (Z.to_nat 601)) with 601 in Hmid.
  set (e := (2 * avg - 3000) * 100 / 1200) in *.
  assert (He : 1200 * e <= (2 * avg - 3000) * 100 < 1200 * e + 1200)
    by (subst e; split;
        [apply Z.mul_div_le; lia
        | pose proof (Z.mod_pos_bound ((2 * avg - 3000) * 100) 1200);
          pose proof (Z.div_mod ((2 * avg - 3000) * 100) 1200); lia]).
  clearbody e.
  destruct (Z_le_gt_dec avg 1500) as [H1 | H1].
  - rewrite Hlow by lia. clear Hlow Hhigh Hmid.
    destruct (Z.ltb_spec e 0); destruct (Z.gtb_spec e 100); lia.
  - destruct (Z_le_gt_dec 2100 avg) as [H2 | H2].
    + rewrite Hhigh by lia. clear Hlow Hhigh Hmid.
      destruct (Z.ltb_spec e 0); destruct (Z.gtb_spec e 100); lia.
    + assert (Hc : 1500 <= avg < 1500 + 601) by lia.
      apply Hmid in Hc. apply andb_true_iff in Hc. destruct Hc as [C1 C2].
      apply Z.leb_le in C1, C2. clear Hlow Hhigh Hmid.
      destruct (Z.ltb_spec e 0); destruct (Z.gtb_spec e 100); lia.
Qed.

Lemma getBatteryLevel_accuracy_witness :
  49 <= fst (getBatteryLevel
               (Platform (fun _ => 1800) ESP_OK ESP_OK ESP_OK true ESP_OK
                  ESP_OK ESP_OK) boot) <= 50.
Proof.
  apply (getBatteryLevel_accuracy
           (Platform (fun _ => 1800) ESP_OK ESP_OK ESP_OK true ESP_OK ESP_OK
              ESP_OK) boot).
  unfold readings_in_range. cbn.
  repeat (apply Forall_cons; [lia |]). apply Forall_nil.
Defined.

End MoreFacts.
